(** * Event-driven backtester: portfolio ledger, execution model, signal
      generator and simulation loop

    A shallow embedding of [src/broker.py], [src/strategy.py],
    [src/portfolio.py] and the bar loop of [src/run.py].

    Conventions of the embedding:
    - a Python [float] is read as an exact rational ([Q]); rounding, infinities
      and NaN of binary64 are outside the model, except in [Module Binary64],
      which re-runs [apply_slippage], and in [Module Binary64Ledger], which
      re-runs [rebalance_to_target], on IEEE-754 doubles;
    - a Python [int] is a [Z];
    - an exception is the [Raise] branch of [result]; the mutable [Portfolio]
      object is threaded explicitly, every method returning the new object;
    - a pandas column is a list aligned with the bar list, an undefined (NaN)
      entry is [None]. *)

From Stdlib Require Import ZArith QArith Qround Lqa Lia List Bool Floats.
Import ListNotations.

Local Open Scope Q_scope.

(** ** Exceptions *)

Inductive PyError : Type :=
| ValueError
| ZeroDivisionError
| KeyError
| OverflowError.

Inductive result (A : Type) : Type :=
| Ok (a : A)
| Raise (e : PyError).

Arguments Ok {A} a.
Arguments Raise {A} e.

Definition bind {A B : Type} (r : result A) (k : A -> result B) : result B :=
  match r with
  | Ok a => k a
  | Raise e => Raise e
  end.

Notation "x <- r ;; k" := (bind r (fun x => k))
  (at level 61, r at next level, right associativity).
Notation "' pat <- r ;; k" := (bind r (fun x => match x with pat => k end))
  (at level 61, pat pattern, r at next level, right associativity).

(** ** Python arithmetic on exact rationals *)

(** [a < b] as a boolean. *)
Definition Qlt_bool (a b : Q) : bool := negb (Qle_bool b a).

(** [max(a, b)]: the first argument unless the second is strictly larger. *)
Definition py_max (a b : Q) : Q := if Qlt_bool a b then b else a.

(** [int(a // b)]: floor of the quotient; a zero divisor raises. *)
Definition floordiv (a b : Q) : result Z :=
  if Qeq_bool b 0 then Raise ZeroDivisionError else Ok (Qfloor (a / b)).

(** ** broker.py *)

Record ExecutionModel : Type := {
  slippage_bps : Q;
  commission : Q
}.

Definition default_ExecutionModel : ExecutionModel :=
  {| slippage_bps := 2; commission := 1 |}.

(** [side]: +1 buy, -1 sell. *)
Definition apply_slippage (price : Q) (side : Z) (slippage_bps : Q) : result Q :=
  if Qle_bool price 0 then Raise ValueError
  else
    let slip := slippage_bps / 10000 in
    Ok (price * (1 + slip * inject_Z side)).

Definition simulate_fill (open_price_next : Q) (side : Z) (qty : Z)
    (model : ExecutionModel) : result (Q * Q) :=
  if (qty <=? 0)%Z then Raise ValueError
  else
    fill_px <- apply_slippage open_price_next side (slippage_bps model) ;;
    let costs := commission model in
    Ok (fill_px, costs).

(** [apply_slippage] once more, on IEEE-754 binary64 values. *)
Module Binary64.

(** [float(side)] for the two sides the broker is called with; any other
    integer of at most 62 bits converts the same way. *)
Definition float_of_int (z : Z) : float :=
  if (z <? 0)%Z then PrimFloat.opp (PrimFloat.of_uint63 (Uint63.of_Z (- z)))
  else PrimFloat.of_uint63 (Uint63.of_Z z).

Definition apply_slippage (price : float) (side : Z) (slippage_bps : float)
    : result float :=
  if PrimFloat.leb price 0%float then Raise ValueError
  else
    let slip := PrimFloat.div slippage_bps 10000%float in
    Ok (PrimFloat.mul price
          (PrimFloat.add 1%float (PrimFloat.mul slip (float_of_int side)))).

End Binary64.

(** ** strategy.py *)

Record MACrossoverParams : Type := {
  fast : positive;
  slow : positive
}.

Definition default_MACrossoverParams : MACrossoverParams :=
  {| fast := 20; slow := 100 |}.

Definition Qsum (l : list Q) : Q := fold_right Qplus 0 l.

(** [close.rolling(w, min_periods=w).mean()] at position [i]: undefined until
    [w] closes are available, then the mean of the last [w] closes. *)
Definition rolling_mean_at (w : positive) (close : list Q) (i : nat) : option Q :=
  let n := Pos.to_nat w in
  if (S i <? n)%nat then None
  else Some (Qsum (firstn n (skipn (S i - n) close)) / inject_Z (Zpos w)).

Definition rolling_mean (w : positive) (close : list Q) : list (option Q) :=
  map (rolling_mean_at w close) (seq 0 (length close)).

(** Element-wise comparisons of two columns; a comparison with an undefined
    operand is false. *)
Definition nan_gt (a b : option Q) : bool :=
  match a, b with
  | Some x, Some y => Qlt_bool y x
  | _, _ => false
  end.

Definition nan_eq (a b : option Q) : bool :=
  match a, b with
  | Some x, Some y => Qeq_bool x y
  | _, _ => false
  end.

(** One entry of the target series, from the two moving averages of its bar:
    [(fast_ma > slow_ma).astype(int)], then for long/short
    [replace({0: -1})] and [raw[fast_ma == slow_ma] = 0]. *)
Definition signal_at (long_only : bool) (fast_ma slow_ma : option Q) : Z :=
  let raw := if nan_gt fast_ma slow_ma then 1%Z else 0%Z in
  if long_only then raw
  else
    let raw := if (raw =? 0)%Z then (-1)%Z else raw in
    if nan_eq fast_ma slow_ma then 0%Z else raw.

Definition generate_ma_crossover_signals (close : list Q)
    (params : MACrossoverParams) (long_only : bool) : list Z :=
  let fast_ma := rolling_mean (fast params) close in
  let slow_ma := rolling_mean (slow params) close in
  map (fun p => signal_at long_only (fst p) (snd p)) (combine fast_ma slow_ma).

(** ** portfolio.py *)

Definition Timestamp : Type := Z.
Bind Scope Z_scope with Timestamp.

Record RiskLimits : Type := {
  max_position_pct : Q;
  max_drawdown : Q
}.

Definition default_RiskLimits : RiskLimits :=
  {| max_position_pct := 25 # 100; max_drawdown := 20 # 100 |}.

Inductive Side : Type := BUY | SELL.

Record Trade : Type := {
  trade_date : Timestamp;
  trade_side : Side;
  trade_qty : Z;
  trade_price : Q;
  trade_notional : Q;
  trade_commission : Q
}.

(** One row of [equity_curve]. *)
Record EquitySnapshot : Type := {
  Date : Timestamp;
  Cash : Q;
  PositionQty : Z;
  Close : Q;
  Equity : Q;
  Drawdown : Q;
  KillSwitch : bool
}.

Record Portfolio : Type := {
  initial_cash : Q;
  cash : Q;
  position_qty : Z;
  limits : RiskLimits;
  trades : list Trade;
  equity_curve : list EquitySnapshot;
  _peak_equity : Q;
  _kill_switch : bool
}.

(** [Portfolio.__init__] *)
Definition Portfolio_init (initial_cash : Q) (limits : RiskLimits)
    : result Portfolio :=
  if Qle_bool initial_cash 0 then Raise ValueError
  else Ok {| initial_cash := initial_cash;
             cash := initial_cash;
             position_qty := 0;
             limits := limits;
             trades := [];
             equity_curve := [];
             _peak_equity := initial_cash;
             _kill_switch := false |}.

Definition kill_switch (self : Portfolio) : bool := _kill_switch self.

Definition mark_to_market (self : Portfolio) (date : Timestamp)
    (close_price : Q) : Portfolio :=
  let equity := cash self + inject_Z (position_qty self) * close_price in
  let peak := py_max (_peak_equity self) equity in
  let dd := if Qeq_bool peak 0 then 0 else (peak - equity) / peak in
  let ks := if Qle_bool (max_drawdown (limits self)) dd then true
            else _kill_switch self in
  {| initial_cash := initial_cash self;
     cash := cash self;
     position_qty := position_qty self;
     limits := limits self;
     trades := trades self;
     equity_curve := equity_curve self ++
       [ {| Date := date;
            Cash := cash self;
            PositionQty := position_qty self;
            Close := close_price;
            Equity := equity;
            Drawdown := dd;
            KillSwitch := ks |} ];
     _peak_equity := peak;
     _kill_switch := ks |}.

Definition _max_allowed_qty (self : Portfolio) (equity price : Q) : result Z :=
  let max_pos_value := max_position_pct (limits self) * equity in
  floordiv max_pos_value price.

(** Lines 88-90 of [rebalance_to_target]: the share count the target asks for. *)
Definition desired_qty (self : Portfolio) (target_position : Z)
    (equity open_price : Q) : result Z :=
  if (target_position =? 1)%Z then _max_allowed_qty self equity open_price
  else Ok 0%Z.

(** The ledger after [cash] and [position_qty] are rewritten and [t] is
    appended to the trade log. *)
Definition commit_trade (self : Portfolio) (new_cash : Q) (new_qty : Z)
    (t : Trade) : Portfolio :=
  {| initial_cash := initial_cash self;
     cash := new_cash;
     position_qty := new_qty;
     limits := limits self;
     trades := trades self ++ [t];
     equity_curve := equity_curve self;
     _peak_equity := _peak_equity self;
     _kill_switch := _kill_switch self |}.

Definition mkTrade (date : Timestamp) (side : Side) (qty : Z)
    (fill_price notional commission : Q) : Trade :=
  {| trade_date := date;
     trade_side := side;
     trade_qty := qty;
     trade_price := fill_price;
     trade_notional := notional;
     trade_commission := commission |}.

Definition rebalance_to_target (self : Portfolio) (date : Timestamp)
    (target_position : Z) (open_price fill_price commission : Q)
    : result (Portfolio * option Trade) :=
  if _kill_switch self then Ok (self, None)
  else
    let equity := cash self + inject_Z (position_qty self) * open_price in
    if negb ((target_position =? 0)%Z || (target_position =? 1)%Z)
    then Raise ValueError
    else
      desired <- desired_qty self target_position equity open_price ;;
      let delta := (desired - position_qty self)%Z in
      if (delta =? 0)%Z then Ok (self, None)
      else
        let qty := Z.abs delta in
        let notional := inject_Z qty * fill_price in
        if (0 <? delta)%Z then
          (* BUY *)
          let total_cost := notional + commission in
          if Qlt_bool (cash self) total_cost then
            affordable_qty <- floordiv (cash self - commission) fill_price ;;
            if (affordable_qty <=? 0)%Z then Ok (self, None)
            else
              let qty := affordable_qty in
              let notional := inject_Z qty * fill_price in
              let total_cost := notional + commission in
              let t := mkTrade date BUY qty fill_price notional commission in
              Ok (commit_trade self (cash self - total_cost)
                    (position_qty self + qty)%Z t, Some t)
          else
            let t := mkTrade date BUY qty fill_price notional commission in
            Ok (commit_trade self (cash self - total_cost)
                  (position_qty self + qty)%Z t, Some t)
        else
          (* SELL *)
          let t := mkTrade date SELL qty fill_price notional commission in
          Ok (commit_trade self (cash self + (notional - commission))
                (position_qty self - qty)%Z t, Some t).

(** ** run.py *)

(** One row of the OHLCV frame; the index entry is [row_Date]. *)
Record Bar : Type := {
  row_Date : Timestamp;
  row_Open : Q;
  row_High : Q;
  row_Low : Q;
  row_Close : Q;
  row_Volume : Z
}.

(** The parsed command line, without the file and directory options. *)
Record Args : Type := {
  arg_fast : positive;
  arg_slow : positive;
  arg_cash : Q;
  arg_slippage_bps : Q;
  arg_commission : Q;
  arg_max_position_pct : Q;
  arg_max_dd : Q
}.

(** Lines 91-94 of [main]: the loop's own sizing, giving the delta from which
    it picks the side. *)
Definition loop_delta (limits : RiskLimits) (portfolio : Portfolio)
    (open_px : Q) (pending_target : Z) : result Z :=
  let equity := cash portfolio + inject_Z (position_qty portfolio) * open_px in
  max_qty <- floordiv (max_position_pct limits * equity) open_px ;;
  let desired_qty := if (pending_target =? 1)%Z then max_qty else 0%Z in
  Ok (desired_qty - position_qty portfolio)%Z.

Definition side_of_delta (delta : Z) : Z :=
  if (0 <? delta)%Z then 1%Z else (-1)%Z.

(** Lines 79-104: execution of the pending target at today's open. *)
Definition execute_pending (exec_model : ExecutionModel) (limits : RiskLimits)
    (portfolio : Portfolio) (dt : Timestamp) (row : Bar)
    (pending_target : option Z) : result Portfolio :=
  match pending_target with
  | None => Ok portfolio
  | Some target =>
      if kill_switch portfolio then Ok portfolio
      else
        let open_px := row_Open row in
        delta <- loop_delta limits portfolio open_px target ;;
        if (delta =? 0)%Z then Ok portfolio
        else
          let side := side_of_delta delta in
          ' (fill_px, comm) <-
              simulate_fill open_px side (Z.abs delta) exec_model ;;
          ' (portfolio', _) <-
              rebalance_to_target portfolio dt target open_px fill_px comm ;;
          Ok portfolio'
  end.

(** Line 107: [int(targets.loc[dt]) if pd.notna(targets.loc[dt]) else 0]. *)
Definition next_pending (target : option Z) : Z :=
  match target with
  | Some v => v
  | None => 0%Z
  end.

(** The body of the [for] loop, lines 72-107. *)
Definition loop_body (exec_model : ExecutionModel) (limits : RiskLimits)
    (portfolio : Portfolio) (pending_target : option Z) (row : Bar)
    (target : option Z) : result (Portfolio * option Z) :=
  let dt := row_Date row in
  let portfolio := mark_to_market portfolio dt (row_Close row) in
  portfolio <- execute_pending exec_model limits portfolio dt row pending_target ;;
  Ok (portfolio, Some (next_pending target)).

(** The [for] loop over the rows; [targets] is the target series, read at the
    position of the row ([targets.loc[dt]] on the shared date index). *)
Fixpoint event_loop (exec_model : ExecutionModel) (limits : RiskLimits)
    (rows : list Bar) (targets : list (option Z))
    (portfolio : Portfolio) (pending_target : option Z)
    : result (Portfolio * option Z) :=
  match rows with
  | [] => Ok (portfolio, pending_target)
  | row :: rows' =>
      match targets with
      | [] => Raise KeyError
      | target :: targets' =>
          ' (portfolio', pending') <-
              loop_body exec_model limits portfolio pending_target row target ;;
          event_loop exec_model limits rows' targets' portfolio' pending'
      end
  end.

(** [main] from the loaded frame, already cut to the [--start] and [--end]
    dates, to the final portfolio (lines 54-107). *)
Definition main (args : Args) (ohlcv : list Bar) : result Portfolio :=
  if (length ohlcv <?
        Nat.max (Pos.to_nat (arg_fast args)) (Pos.to_nat (arg_slow args)) + 2)%nat
  then Raise ValueError
  else
    let params := {| fast := arg_fast args; slow := arg_slow args |} in
    let targets :=
      generate_ma_crossover_signals (map row_Close ohlcv) params true in
    let exec_model := {| slippage_bps := arg_slippage_bps args;
                         commission := arg_commission args |} in
    let limits := {| max_position_pct := arg_max_position_pct args;
                     max_drawdown := arg_max_dd args |} in
    portfolio <- Portfolio_init (arg_cash args) limits ;;
    ' (portfolio, _) <-
        event_loop exec_model limits ohlcv (map Some targets) portfolio None ;;
    Ok portfolio.

(** ** portfolio.py on binary64 values *)

(** [rebalance_to_target] once more, with every [float] an IEEE-754 double
    and the arithmetic of CPython: [//] on floats, [int(...)] of a float and
    the conversion of an [int] operand to [float]. *)
Module Binary64Ledger.

(** C's [fmod]: the exact remainder of [x] by [y], with the sign of [x]. *)
Definition fmod (x y : float) : float :=
  match Prim2SF x, Prim2SF y with
  | S754_nan, _ | _, S754_nan => nan
  | S754_infinity _, _ => nan
  | _, S754_zero _ => nan
  | _, S754_infinity _ => x
  | S754_zero _, _ => x
  | S754_finite sx mx ex, S754_finite _ my ey =>
      let e := Z.min ex ey in
      let X := (Zpos mx * 2 ^ (ex - e))%Z in
      let Y := (Zpos my * 2 ^ (ey - e))%Z in
      let R := (X mod Y)%Z in
      SF2Prim (binary_normalize prec emax (if sx then - R else R)%Z e sx)
  end.

(** C's [floor]. *)
Definition floor (d : float) : float :=
  match Prim2SF d with
  | S754_finite s m e =>
      if (0 <=? e)%Z then d
      else SF2Prim (binary_normalize prec emax
                      ((if s then Zneg m else Zpos m) / 2 ^ (- e))%Z 0 s)
  | _ => d
  end.

(** A double used as a C condition: anything but a zero, NaN included. *)
Definition nonzero (f : float) : bool := negb (PrimFloat.eqb f 0%float).

(** [vx // wx] on floats, as CPython's [float_floor_div] computes it: the
    remainder by [fmod], the quotient of [vx - rem] by [wx], one less when the
    remainder and the divisor differ in sign, then snapped to the nearest
    integral value. *)
Definition float_floor_div (vx wx : float) : result float :=
  if PrimFloat.eqb wx 0%float then Raise ZeroDivisionError
  else
    let rem := fmod vx wx in
    let div := PrimFloat.div (PrimFloat.sub vx rem) wx in
    let div :=
      if nonzero rem then
        if xorb (PrimFloat.ltb wx 0%float) (PrimFloat.ltb rem 0%float)
        then PrimFloat.sub div 1%float else div
      else div in
    Ok (if nonzero div then
          let floordiv := floor div in
          if PrimFloat.ltb 0.5%float (PrimFloat.sub div floordiv)
          then PrimFloat.add floordiv 1%float else floordiv
        else if get_sign (PrimFloat.div vx wx) then neg_zero else zero).

(** [int(f)]: truncation; NaN and the infinities raise. *)
Definition int (f : float) : result Z :=
  match Prim2SF f with
  | S754_nan => Raise ValueError
  | S754_infinity _ => Raise OverflowError
  | S754_zero _ => Ok 0%Z
  | S754_finite s m e =>
      let n := (if (0 <=? e) then Zpos m * 2 ^ e else Zpos m / 2 ^ (- e))%Z in
      Ok (if s then (- n)%Z else n)
  end.

(** An [int] operand of a float operation: the nearest double, ties to even;
    too large an integer raises. *)
Definition float_of_int (z : Z) : result float :=
  let f := SF2Prim (binary_normalize prec emax z 0 false) in
  if is_infinity f then Raise OverflowError else Ok f.

Record RiskLimits : Type := {
  max_position_pct : float;
  max_drawdown : float
}.

Record Trade : Type := {
  trade_date : Timestamp;
  trade_side : Side;
  trade_qty : Z;
  trade_price : float;
  trade_notional : float;
  trade_commission : float
}.

Record EquitySnapshot : Type := {
  Date : Timestamp;
  Cash : float;
  PositionQty : Z;
  Close : float;
  Equity : float;
  Drawdown : float;
  KillSwitch : bool
}.

Record Portfolio : Type := {
  initial_cash : float;
  cash : float;
  position_qty : Z;
  limits : RiskLimits;
  trades : list Trade;
  equity_curve : list EquitySnapshot;
  _peak_equity : float;
  _kill_switch : bool
}.

Definition _max_allowed_qty (self : Portfolio) (equity price : float)
    : result Z :=
  let max_pos_value := PrimFloat.mul (max_position_pct (limits self)) equity in
  q <- float_floor_div max_pos_value price ;;
  int q.

Definition commit_trade (self : Portfolio) (new_cash : float) (new_qty : Z)
    (t : Trade) : Portfolio :=
  {| initial_cash := initial_cash self;
     cash := new_cash;
     position_qty := new_qty;
     limits := limits self;
     trades := trades self ++ [t];
     equity_curve := equity_curve self;
     _peak_equity := _peak_equity self;
     _kill_switch := _kill_switch self |}.

Definition mkTrade (date : Timestamp) (side : Side) (qty : Z)
    (fill_price notional commission : float) : Trade :=
  {| trade_date := date;
     trade_side := side;
     trade_qty := qty;
     trade_price := fill_price;
     trade_notional := notional;
     trade_commission := commission |}.

Definition rebalance_to_target (self : Portfolio) (date : Timestamp)
    (target_position : Z) (open_price fill_price commission : float)
    : result (Portfolio * option Trade) :=
  if _kill_switch self then Ok (self, None)
  else
    held <- float_of_int (position_qty self) ;;
    let equity := PrimFloat.add (cash self) (PrimFloat.mul held open_price) in
    if negb ((target_position =? 0)%Z || (target_position =? 1)%Z)
    then Raise ValueError
    else
      desired <- (if (target_position =? 1)%Z
                  then _max_allowed_qty self equity open_price
                  else Ok 0%Z) ;;
      let delta := (desired - position_qty self)%Z in
      if (delta =? 0)%Z then Ok (self, None)
      else
        let qty := Z.abs delta in
        qty_f <- float_of_int qty ;;
        let notional := PrimFloat.mul qty_f fill_price in
        if (0 <? delta)%Z then
          (* BUY *)
          let total_cost := PrimFloat.add notional commission in
          if PrimFloat.ltb (cash self) total_cost then
            q <- float_floor_div (PrimFloat.sub (cash self) commission)
                   fill_price ;;
            affordable_qty <- int q ;;
            if (affordable_qty <=? 0)%Z then Ok (self, None)
            else
              let qty := affordable_qty in
              qty_f <- float_of_int qty ;;
              let notional := PrimFloat.mul qty_f fill_price in
              let total_cost := PrimFloat.add notional commission in
              let t := mkTrade date BUY qty fill_price notional commission in
              Ok (commit_trade self (PrimFloat.sub (cash self) total_cost)
                    (position_qty self + qty)%Z t, Some t)
          else
            let t := mkTrade date BUY qty fill_price notional commission in
            Ok (commit_trade self (PrimFloat.sub (cash self) total_cost)
                  (position_qty self + qty)%Z t, Some t)
        else
          (* SELL *)
          let t := mkTrade date SELL qty fill_price notional commission in
          Ok (commit_trade self
                (PrimFloat.add (cash self) (PrimFloat.sub notional commission))
                (position_qty self - qty)%Z t, Some t).

(** Cash 30.24, nothing held, the whole equity allowed in one position. *)
Definition overdraft_portfolio : Portfolio :=
  {| initial_cash := 0x1.e3d70a3d70a3dp+4;
     cash := 0x1.e3d70a3d70a3dp+4;
     position_qty := 0;
     limits := {| max_position_pct := 1; max_drawdown := 0x1.999999999999ap-3 |};
     trades := [];
     equity_curve := [];
     _peak_equity := 0x1.e3d70a3d70a3dp+4;
     _kill_switch := false |}.

(** The commission 2.24 of the overdraft scenario. *)
Definition overdraft_commission : float := 0x1.1eb851eb851ecp+1.

End Binary64Ledger.

(** ** Sample data *)

Definition bar (d : Z) (o c : Q) : Bar :=
  {| row_Date := d; row_Open := o;
     row_High := py_max o c; row_Low := if Qlt_bool c o then c else o;
     row_Close := c; row_Volume := 0 |}.

Definition sample_portfolio (c : Q) (q : Z) (ks : bool) : Portfolio :=
  {| initial_cash := c; cash := c; position_qty := q;
     limits := default_RiskLimits; trades := []; equity_curve := [];
     _peak_equity := c; _kill_switch := ks |}.

(** A position of 100 shares held at a peak equity of 1000: a close of 5
    halves the equity and trips the switch. *)
Definition tripping_portfolio : Portfolio :=
  {| initial_cash := 1000; cash := 0; position_qty := 100;
     limits := default_RiskLimits; trades := []; equity_curve := [];
     _peak_equity := 1000; _kill_switch := false |}.

(** ** Predicates of the statements *)

(** [pf2] is [pf1] frozen by the kill switch, [n] bars later: the switch is
    on, cash, position and trade log are those of [pf1], and the equity curve
    grew by [n] rows that all record the switch as on. *)
Definition frozen_since (pf1 pf2 : Portfolio) (n : nat) : Prop :=
  kill_switch pf2 = true /\
  trades pf2 = trades pf1 /\
  cash pf2 = cash pf1 /\
  position_qty pf2 = position_qty pf1 /\
  exists snaps,
    equity_curve pf2 = equity_curve pf1 ++ snaps /\
    length snaps = n /\
    Forall (fun s => KillSwitch s = true) snaps.

(** [pf'] and [t] are what a buy of [q] shares at [f] with commission [c]
    makes of [pf]. *)
Definition bought (pf pf' : Portfolio) (t : Trade) (q : Z) (f c : Q) : Prop :=
  trade_side t = BUY /\
  trade_qty t = q /\
  cash pf' = cash pf - (inject_Z q * f + c) /\
  position_qty pf' = (position_qty pf + q)%Z /\
  trades pf' = trades pf ++ [t].

(** The equity estimate at the open, used for sizing. *)
Definition equity_at_open (pf : Portfolio) (o : Q) : Q :=
  cash pf + inject_Z (position_qty pf) * o.

(** The affordability-clamp scenario: cash 100, nothing held; at an open of 5
    a quarter of the equity asks for 5 shares. *)
Definition clamp_portfolio : Portfolio :=
  {| initial_cash := 100; cash := 100; position_qty := 0;
     limits := default_RiskLimits; trades := []; equity_curve := [];
     _peak_equity := 100; _kill_switch := false |}.

(** The change of position a call made, as a sign: +1 bought, -1 sold. *)
Definition executed_sign (pf pf' : Portfolio) : Z :=
  Z.sgn (position_qty pf' - position_qty pf).

(** Lines 63-65 and 88-90 of portfolio.py and lines 91-93 of run.py as the
    spec words them: the floor of [max_position_pct * equity / open] for
    target 1, else 0. *)
Definition spec_desired_qty (lim : RiskLimits) (equity o : Q) (target : Z) : Z :=
  if (target =? 1)%Z then Qfloor (max_position_pct lim * equity / o) else 0%Z.

(** [r] is a value equal, as a rational, to [q]. *)
Definition returns (r : result Q) (q : Q) : Prop :=
  match r with
  | Ok v => v == q
  | Raise _ => False
  end.

(** The ranges the spec gives to the two risk-limit fractions. *)
Definition well_formed_limits (lim : RiskLimits) : Prop :=
  (0 < max_position_pct lim /\ max_position_pct lim <= 1) /\
  (0 < max_drawdown lim /\ max_drawdown lim <= 1).

(** A fresh ledger: what [Portfolio.__init__] builds. *)
Definition fresh (pf : Portfolio) (c : Q) (lim : RiskLimits) : Prop :=
  initial_cash pf = c /\ cash pf = c /\ position_qty pf = 0%Z /\
  limits pf = lim /\ trades pf = [] /\ equity_curve pf = [] /\
  _peak_equity pf = c /\ kill_switch pf = false.

Definition malformed_limits : RiskLimits :=
  {| max_position_pct := 2; max_drawdown := -1 |}.

(** What [main] keeps of the loop's result: the portfolio, not the pending
    target (line 109 on). *)
Definition final_portfolio (r : result (Portfolio * option Z))
    : result Portfolio :=
  ' (portfolio, _) <- r ;; Ok portfolio.

(** The loop over the first [t] bars, from a pending target of none. *)
Definition run_prefix (em : ExecutionModel) (lim : RiskLimits)
    (rows : list Bar) (targets : list (option Z)) (pf0 : Portfolio) (t : nat)
    : result (Portfolio * option Z) :=
  event_loop em lim (firstn t rows) (firstn t targets) pf0 None.

(** A target the long-only portfolio accepts. *)
Definition valid_target (z : Z) : Prop := z = 0%Z \/ z = 1%Z.

Definition valid_pending (p : option Z) : Prop :=
  match p with
  | Some z => valid_target z
  | None => True
  end.

(** An entry of the target series whose pending value is a valid target. *)
Definition valid_signal (tg : option Z) : Prop := valid_target (next_pending tg).

(** The rows [snaps] are the snapshots of the bars [rows], one per bar and in
    their order. *)
Definition one_snapshot_per_bar (snaps : list EquitySnapshot)
    (rows : list Bar) : Prop :=
  length snaps = length rows /\
  map Date snaps = map row_Date rows /\
  map Close snaps = map row_Close rows.

(** A five-bar run: windows 1 and 2, 1000 in cash, no slippage. *)
Definition sample_args : Args :=
  {| arg_fast := 1; arg_slow := 2; arg_cash := 1000; arg_slippage_bps := 0;
     arg_commission := 1; arg_max_position_pct := 1 # 4; arg_max_dd := 1 # 5 |}.

Definition sample_ohlcv : list Bar :=
  [bar 1 10 10; bar 2 10 11; bar 3 10 12; bar 4 10 5; bar 5 10 4].

(** ** Outcomes of [rebalance_to_target] *)

(** The result of a call that buys [q] shares at [f] with commission [c]. *)
Definition executed_buy (pf : Portfolio) (d : Timestamp) (q : Z) (f c : Q)
    : Portfolio * option Trade :=
  let t := mkTrade d BUY q f (inject_Z q * f) c in
  (commit_trade pf (cash pf - (inject_Z q * f + c)) (position_qty pf + q)%Z t,
   Some t).

(** The result of a call that sells [q] shares at [f] with commission [c]. *)
Definition executed_sell (pf : Portfolio) (d : Timestamp) (q : Z) (f c : Q)
    : Portfolio * option Trade :=
  let t := mkTrade d SELL q f (inject_Z q * f) c in
  (commit_trade pf (cash pf + (inject_Z q * f - c)) (position_qty pf - q)%Z t,
   Some t).

(** The ledger valued at a price [px]. *)
Definition equity_at (pf : Portfolio) (px : Q) : Q :=
  cash pf + inject_Z (position_qty pf) * px.

(** A trade record as the ledger writes it. *)
Definition well_formed_trade (t : Trade) : Prop :=
  (0 < trade_qty t)%Z /\
  trade_notional t = inject_Z (trade_qty t) * trade_price t.

(** [+1] for a buy, [-1] for a sell: the [side] of broker.py. *)
Definition side_sign (s : Side) : Z :=
  match s with
  | BUY => 1%Z
  | SELL => (-1)%Z
  end.

(** [t] is a trade of the bar [row] under the execution model [em]: dated with
    the bar, filled at the bar's open moved by the slippage in the direction
    of the trade, charged the model's commission. *)
Definition filled_at_open (em : ExecutionModel) (row : Bar) (t : Trade) : Prop :=
  trade_date t = row_Date row /\
  0 < row_Open row /\
  trade_price t =
    row_Open row *
      (1 + slippage_bps em / 10000 * inject_Z (side_sign (trade_side t))) /\
  trade_commission t = commission em /\
  well_formed_trade t.

(** [ts] are trades of the bars [rows]: at most one per bar, in the order of
    the bars, each one filled at the open of its bar. *)
Inductive trades_of_bars (em : ExecutionModel) : list Bar -> list Trade -> Prop :=
| bars_done : trades_of_bars em [] []
| bar_without_trade (row : Bar) (rows : list Bar) (ts : list Trade) :
    trades_of_bars em rows ts ->
    trades_of_bars em (row :: rows) ts
| bar_with_trade (row : Bar) (rows : list Bar) (t : Trade) (ts : list Trade) :
    filled_at_open em row t ->
    trades_of_bars em rows ts ->
    trades_of_bars em (row :: rows) (t :: ts).

(** The target series of [sample_ohlcv] for windows 1 and 2. *)
Definition sample_targets : list (option Z) :=
  [Some 0%Z; Some 1%Z; Some 1%Z; Some 0%Z; Some 0%Z].





(** * Properties *)

(** ** Arithmetic helpers *)

Lemma Qlt_bool_iff (a b : Q) : Qlt_bool a b = true <-> a < b.
Proof.
  unfold Qlt_bool. rewrite negb_true_iff.
  split; intro H.
  - apply Qnot_le_lt. intro Hle. apply Qle_bool_iff in Hle. congruence.
  - destruct (Qle_bool b a) eqn:E; [|reflexivity].
    apply Qle_bool_iff in E. exfalso. apply (Qlt_not_le _ _ H). exact E.
Qed.

Lemma Qlt_bool_false_iff (a b : Q) : Qlt_bool a b = false <-> b <= a.
Proof.
  unfold Qlt_bool. rewrite negb_false_iff. apply Qle_bool_iff.
Qed.

Lemma Qle_bool_false_iff (a b : Q) : Qle_bool a b = false <-> b < a.
Proof.
  rewrite <- Qlt_bool_iff. unfold Qlt_bool.
  destruct (Qle_bool a b); simpl; split; congruence.
Qed.

Lemma floordiv_ok (a b : Q) :
  ~ b == 0 -> floordiv a b = Ok (Qfloor (a / b)).
Proof.
  intro Hb. unfold floordiv.
  destruct (Qeq_bool b 0) eqn:E; [|reflexivity].
  apply Qeq_bool_eq in E. contradiction.
Qed.

Lemma floordiv_inv (a b : Q) (z : Z) :
  floordiv a b = Ok z -> ~ b == 0 /\ z = Qfloor (a / b).
Proof.
  unfold floordiv. destruct (Qeq_bool b 0) eqn:E; [discriminate|].
  intro H. injection H as <-. split; [|reflexivity].
  apply Qeq_bool_neq. exact E.
Qed.

(** [floor(a / b) * b <= a] for a positive divisor. *)
Lemma Qfloor_div_mult_le (a b : Q) :
  0 < b -> inject_Z (Qfloor (a / b)) * b <= a.
Proof.
  intro Hb.
  assert (Hfl : inject_Z (Qfloor (a / b)) <= a / b) by apply Qfloor_le.
  assert (Hmul : inject_Z (Qfloor (a / b)) * b <= (a / b) * b).
  { apply Qmult_le_compat_r; [exact Hfl | apply Qlt_le_weak; exact Hb]. }
  assert (Heq : (a / b) * b == a).
  { field. intro Hz. rewrite Hz in Hb. apply (Qlt_irrefl 0). exact Hb. }
  rewrite Heq in Hmul. exact Hmul.
Qed.

(** ** The error monad *)

Lemma bind_Ok_inv {A B : Type} (r : result A) (k : A -> result B) (b : B) :
  bind r k = Ok b -> exists a, r = Ok a /\ k a = Ok b.
Proof.
  destruct r as [a|e]; simpl; intro H; [eauto | discriminate].
Qed.

(** Case analysis on the scrutinee of the outermost [match] or [if]. *)
Ltac case_scrutinee :=
  match goal with
  | |- context [match ?x with _ => _ end] =>
      lazymatch x with
      | context [match _ with _ => _ end] => fail
      | _ => destruct x eqn:?
      end
  end.

Ltac case_scrutinee_in H :=
  match type of H with
  | context [match ?x with _ => _ end] =>
      lazymatch x with
      | context [match _ with _ => _ end] => fail
      | _ => destruct x eqn:?
      end
  end.

(** ** The ledger: what each method leaves alone *)

Lemma mark_to_market_frame (pf : Portfolio) (d : Timestamp) (c : Q) :
  cash (mark_to_market pf d c) = cash pf /\
  position_qty (mark_to_market pf d c) = position_qty pf /\
  trades (mark_to_market pf d c) = trades pf /\
  limits (mark_to_market pf d c) = limits pf.
Proof. repeat split. Qed.

Lemma mark_to_market_sticky (pf : Portfolio) (d : Timestamp) (c : Q) :
  _kill_switch pf = true -> _kill_switch (mark_to_market pf d c) = true.
Proof.
  intro H. unfold mark_to_market; simpl. rewrite H.
  destruct (Qle_bool _ _); reflexivity.
Qed.

(** The one row [mark_to_market] appends. *)
Lemma mark_to_market_snapshot (pf : Portfolio) (d : Timestamp) (c : Q) :
  exists s,
    equity_curve (mark_to_market pf d c) = equity_curve pf ++ [s] /\
    Date s = d /\ Close s = c /\
    Cash s = cash pf /\ PositionQty s = position_qty pf /\
    Equity s = cash pf + inject_Z (position_qty pf) * c /\
    KillSwitch s = _kill_switch (mark_to_market pf d c).
Proof.
  eexists. split; [reflexivity|]. repeat split.
Qed.

(** An executed call appends its trade and touches nothing but [cash],
    [position_qty] and the trade log; a call that returns none is the identity. *)
Lemma rebalance_to_target_frame (pf pf' : Portfolio) (d : Timestamp)
    (target : Z) (o f c : Q) (ot : option Trade) :
  rebalance_to_target pf d target o f c = Ok (pf', ot) ->
  _kill_switch pf' = _kill_switch pf /\
  equity_curve pf' = equity_curve pf /\
  limits pf' = limits pf /\
  _peak_equity pf' = _peak_equity pf /\
  match ot with
  | Some t => trades pf' = trades pf ++ [t]
  | None => pf' = pf
  end.
Proof.
  unfold rebalance_to_target, bind. intro H.
  repeat (case_scrutinee_in H; simpl in H; try discriminate);
    injection H as <- <-; simpl; repeat split; assumption.
Qed.

Lemma rebalance_to_target_killed (pf : Portfolio) (d : Timestamp)
    (target : Z) (o f c : Q) :
  _kill_switch pf = true ->
  rebalance_to_target pf d target o f c = Ok (pf, None).
Proof.
  intro H. unfold rebalance_to_target. rewrite H. reflexivity.
Qed.

(** ** The loop: one bar *)

Lemma execute_pending_killed (em : ExecutionModel) (lim : RiskLimits)
    (pf : Portfolio) (dt : Timestamp) (row : Bar) (p : option Z) :
  kill_switch pf = true -> execute_pending em lim pf dt row p = Ok pf.
Proof.
  intro H. unfold execute_pending. rewrite H. destruct p; reflexivity.
Qed.

Lemma execute_pending_none (em : ExecutionModel) (lim : RiskLimits)
    (pf : Portfolio) (dt : Timestamp) (row : Bar) :
  execute_pending em lim pf dt row None = Ok pf.
Proof. reflexivity. Qed.

Lemma execute_pending_frame (em : ExecutionModel) (lim : RiskLimits)
    (pf pf' : Portfolio) (dt : Timestamp) (row : Bar) (p : option Z) :
  execute_pending em lim pf dt row p = Ok pf' ->
  _kill_switch pf' = _kill_switch pf /\
  equity_curve pf' = equity_curve pf /\
  limits pf' = limits pf /\
  _peak_equity pf' = _peak_equity pf.
Proof.
  unfold execute_pending. intro H.
  destruct p as [target|]; [|injection H as <-; repeat split].
  destruct (kill_switch pf); [injection H as <-; repeat split|].
  apply bind_Ok_inv in H. destruct H as (delta & _ & H).
  destruct (delta =? 0)%Z; [injection H as <-; repeat split|].
  apply bind_Ok_inv in H. destruct H as ([fill_px comm] & _ & H).
  apply bind_Ok_inv in H. destruct H as ([pf1 ot] & Hreb & H).
  injection H as <-.
  apply rebalance_to_target_frame in Hreb.
  destruct Hreb as (H1 & H2 & H3 & H4 & _). auto.
Qed.

Lemma loop_body_inv (em : ExecutionModel) (lim : RiskLimits)
    (pf pf' : Portfolio) (p p' : option Z) (row : Bar) (tg : option Z) :
  loop_body em lim pf p row tg = Ok (pf', p') ->
  p' = Some (next_pending tg) /\
  execute_pending em lim (mark_to_market pf (row_Date row) (row_Close row))
    (row_Date row) row p = Ok pf'.
Proof.
  unfold loop_body. intro H.
  apply bind_Ok_inv in H. destruct H as (pf1 & Hex & H).
  injection H as <- <-. auto.
Qed.

(** A bar that ends with the switch on has executed nothing: the portfolio is
    the marked-to-market one. *)
Lemma loop_body_switch_on (em : ExecutionModel) (lim : RiskLimits)
    (pf pf' : Portfolio) (p p' : option Z) (row : Bar) (tg : option Z) :
  loop_body em lim pf p row tg = Ok (pf', p') ->
  kill_switch pf' = true ->
  pf' = mark_to_market pf (row_Date row) (row_Close row).
Proof.
  intros H Hks. apply loop_body_inv in H. destruct H as [_ H].
  pose proof (execute_pending_frame _ _ _ _ _ _ _ H) as (Hk & _).
  unfold kill_switch in Hks. rewrite Hk in Hks.
  rewrite execute_pending_killed in H by exact Hks.
  injection H as <-. reflexivity.
Qed.

(** With the switch on, a bar only appends its snapshot. *)
Lemma loop_body_killed (em : ExecutionModel) (lim : RiskLimits)
    (pf : Portfolio) (p : option Z) (row : Bar) (tg : option Z) :
  kill_switch pf = true ->
  loop_body em lim pf p row tg =
    Ok (mark_to_market pf (row_Date row) (row_Close row),
        Some (next_pending tg)).
Proof.
  intro H. unfold loop_body.
  rewrite execute_pending_killed; [reflexivity|].
  apply mark_to_market_sticky. exact H.
Qed.

(** ** The loop: a run *)

Lemma event_loop_app (em : ExecutionModel) (lim : RiskLimits)
    (rows1 rows2 : list Bar) :
  forall (t1 t2 : list (option Z)) (pf : Portfolio) (p : option Z),
    length rows1 = length t1 ->
    event_loop em lim (rows1 ++ rows2) (t1 ++ t2) pf p =
      (' (pf1, p1) <- event_loop em lim rows1 t1 pf p ;;
       event_loop em lim rows2 t2 pf1 p1).
Proof.
  induction rows1 as [|row rows1 IH]; intros t1 t2 pf p Hlen.
  - destruct t1; [reflexivity | discriminate].
  - destruct t1 as [|tg t1]; [discriminate|].
    simpl in Hlen. injection Hlen as Hlen. simpl.
    destruct (loop_body em lim pf p row tg) as [[pf1 p1]|e]; simpl;
      [apply IH; exact Hlen | reflexivity].
Qed.

Lemma event_loop_killed (em : ExecutionModel) (lim : RiskLimits)
    (rows : list Bar) :
  forall (targets : list (option Z)) (pf : Portfolio) (p : option Z),
    length rows = length targets ->
    kill_switch pf = true ->
    exists pf' p',
      event_loop em lim rows targets pf p = Ok (pf', p') /\
      frozen_since pf pf' (length rows).
Proof.
  induction rows as [|row rows IH]; intros targets pf p Hlen Hks.
  - exists pf, p. split; [reflexivity|].
    repeat split; try assumption.
    exists []. rewrite app_nil_r. auto.
  - destruct targets as [|tg targets]; [discriminate|].
    simpl in Hlen. injection Hlen as Hlen. simpl.
    rewrite loop_body_killed by exact Hks. simpl.
    set (pf1 := mark_to_market pf (row_Date row) (row_Close row)).
    assert (Hks1 : kill_switch pf1 = true)
      by (apply mark_to_market_sticky; exact Hks).
    destruct (IH targets pf1 (Some (next_pending tg)) Hlen Hks1)
      as (pf' & p' & Hrun & Hk & Ht & Hc & Hq & snaps & Hs & Hn & Hall).
    exists pf', p'. split; [exact Hrun|].
    repeat split; try assumption.
    destruct (mark_to_market_snapshot pf (row_Date row) (row_Close row))
      as (s & Hs1 & _ & _ & _ & _ & _ & Hsk).
    exists (s :: snaps). repeat split.
    + rewrite Hs. fold pf1 in Hs1. rewrite Hs1. rewrite <- app_assoc. reflexivity.
    + simpl. rewrite Hn. reflexivity.
    + constructor; [|exact Hall]. rewrite Hsk. exact Hks1.
Qed.

(** ** Kill switch *)

(** C1. Once the kill switch is on after some bar of a run, the run goes on
    to its end without raising, the switch is still on, every snapshot
    appended by the later bars records it as on, and cash, position and trade
    log are those of the bar where it was first seen on; the bar on which the
    switch trips appends no trade either; and with the switch on
    [rebalance_to_target] returns none and leaves the portfolio as it is. *)
Theorem kill_switch_monotonic :
  (forall (em : ExecutionModel) (lim : RiskLimits)
          (rows1 rows2 : list Bar) (t1 t2 : list (option Z))
          (pf0 pf1 : Portfolio) (p0 p1 : option Z),
      length rows1 = length t1 ->
      length rows2 = length t2 ->
      event_loop em lim rows1 t1 pf0 p0 = Ok (pf1, p1) ->
      kill_switch pf1 = true ->
      exists pf2 p2,
        event_loop em lim (rows1 ++ rows2) (t1 ++ t2) pf0 p0 = Ok (pf2, p2) /\
        frozen_since pf1 pf2 (length rows2)) /\
  (forall (em : ExecutionModel) (lim : RiskLimits) (pf pf' : Portfolio)
          (p p' : option Z) (row : Bar) (tg : option Z),
      loop_body em lim pf p row tg = Ok (pf', p') ->
      kill_switch pf' = true ->
      trades pf' = trades pf /\
      cash pf' = cash pf /\
      position_qty pf' = position_qty pf) /\
  (forall (pf : Portfolio) (d : Timestamp) (target : Z) (o f c : Q),
      kill_switch pf = true ->
      rebalance_to_target pf d target o f c = Ok (pf, None)).
Proof.
  split; [|split].
  - intros em lim rows1 rows2 t1 t2 pf0 pf1 p0 p1 Hl1 Hl2 Hrun Hks.
    rewrite event_loop_app by exact Hl1. rewrite Hrun. simpl.
    apply event_loop_killed; assumption.
  - intros em lim pf pf' p p' row tg Hstep Hks.
    rewrite (loop_body_switch_on _ _ _ _ _ _ _ _ Hstep Hks).
    repeat split.
  - intros pf d target o f c Hks.
    apply rebalance_to_target_killed. exact Hks.
Qed.

Lemma kill_switch_monotonic_witness :
  exists pf2 p2,
    event_loop default_ExecutionModel default_RiskLimits
      ([bar 1 10 5] ++ [bar 2 5 20; bar 3 20 20]) ([Some 0%Z] ++ [Some 1%Z; Some 1%Z])
      tripping_portfolio None = Ok (pf2, p2) /\
    frozen_since (mark_to_market tripping_portfolio 1 5) pf2 2.
Proof.
  apply (proj1 kill_switch_monotonic default_ExecutionModel default_RiskLimits
           [bar 1 10 5] [bar 2 5 20; bar 3 20 20] [Some 0%Z] [Some 1%Z; Some 1%Z]
           tripping_portfolio (mark_to_market tripping_portfolio 1 5)
           None (Some 0%Z)).
  - reflexivity.
  - reflexivity.
  - reflexivity.
  - reflexivity.
Defined.

(** C10. With the switch on, [rebalance_to_target] returns none for every
    target, valid or not, and leaves the portfolio as it is; the validation
    only comes second: with the switch off, the same invalid target raises. *)
Theorem rebalance_kill_switch_precedes_validation :
  forall (pf : Portfolio) (d : Timestamp) (target : Z) (o f c : Q),
    (kill_switch pf = true ->
     rebalance_to_target pf d target o f c = Ok (pf, None)) /\
    (kill_switch pf = false -> target <> 0%Z -> target <> 1%Z ->
     rebalance_to_target pf d target o f c = Raise ValueError).
Proof.
  intros pf d target o f c. split.
  - apply rebalance_to_target_killed.
  - intros Hks H0 H1. unfold rebalance_to_target.
    unfold kill_switch in Hks. rewrite Hks.
    apply Z.eqb_neq in H0, H1. rewrite H0, H1. reflexivity.
Qed.

Lemma rebalance_kill_switch_precedes_validation_witness :
  rebalance_to_target (sample_portfolio 1000 7 true) 3 5 10 10 1
    = Ok (sample_portfolio 1000 7 true, None) /\
  rebalance_to_target (sample_portfolio 1000 7 false) 3 5 10 10 1
    = Raise ValueError.
Proof.
  split.
  - apply (proj1 (rebalance_kill_switch_precedes_validation
                    (sample_portfolio 1000 7 true) 3 5 10 10 1)).
    reflexivity.
  - apply (proj2 (rebalance_kill_switch_precedes_validation
                    (sample_portfolio 1000 7 false) 3 5 10 10 1));
      [reflexivity | discriminate | discriminate].
Defined.

(** ** Buying *)

(** The two ways a call executes a buy: in full, or clamped to what the cash
    affords. *)
Lemma rebalance_to_target_buy_inv (pf pf' : Portfolio) (d : Timestamp)
    (target : Z) (o f c : Q) (t : Trade) :
  rebalance_to_target pf d target o f c = Ok (pf', Some t) ->
  trade_side t = BUY ->
  exists q,
    (0 < q)%Z /\ bought pf pf' t q f c /\
    (inject_Z q * f + c <= cash pf \/
     (~ f == 0 /\ q = Qfloor ((cash pf - c) / f))).
Proof.
  unfold rebalance_to_target, bind. intros H Hside.
  destruct (_kill_switch pf); [discriminate|].
  destruct (negb _); [discriminate|].
  destruct (desired_qty pf target _ o) as [desired|e]; [|discriminate].
  destruct (desired - position_qty pf =? 0)%Z; [discriminate|].
  destruct (0 <? desired - position_qty pf)%Z eqn:Hpos.
  - apply Z.ltb_lt in Hpos.
    rewrite (Z.abs_eq (desired - position_qty pf)) in H by lia.
    destruct (Qlt_bool (cash pf) _) eqn:Hcost.
    + destruct (floordiv (cash pf - c) f) as [q|e] eqn:Hq; [|discriminate].
      apply floordiv_inv in Hq. destruct Hq as [Hf Hq].
      destruct (q <=? 0)%Z eqn:Hq0; [discriminate|].
      apply Z.leb_gt in Hq0.
      injection H as <- <-. exists q.
      split; [exact Hq0|]. split; [repeat split|].
      right. auto.
    + apply Qlt_bool_false_iff in Hcost.
      injection H as <- <-. exists (desired - position_qty pf)%Z.
      split; [exact Hpos|]. split; [repeat split|].
      left. exact Hcost.
  - injection H as <- <-. simpl in Hside. discriminate.
Qed.

(** In exact arithmetic the clamp keeps the cash non-negative: a call on a
    portfolio with non-negative cash, at a positive fill price and a
    non-negative commission, that executes a BUY leaves the cash
    non-negative. The overdraft of [clamped_buy_overdraws_on_binary64] comes
    from the rounding of doubles alone. *)
Theorem cash_nonneg_after_buy :
  forall (pf pf' : Portfolio) (d : Timestamp) (target : Z) (o f c : Q)
         (t : Trade),
    0 <= cash pf ->
    0 < f ->
    0 <= c ->
    rebalance_to_target pf d target o f c = Ok (pf', Some t) ->
    trade_side t = BUY ->
    0 <= cash pf'.
Proof.
  intros pf pf' d target o f c t Hcash Hf Hc Hcall Hside.
  destruct (rebalance_to_target_buy_inv _ _ _ _ _ _ _ _ Hcall Hside)
    as (q & Hq & (_ & _ & Hcash' & _ & _) & Hcase).
  rewrite Hcash'.
  destruct Hcase as [Hfull | [_ Hclamp]].
  - lra.
  - pose proof (Qfloor_div_mult_le (cash pf - c) f Hf) as Hle.
    rewrite <- Hclamp in Hle. lra.
Qed.

Lemma cash_nonneg_after_buy_witness :
  exists pf' t,
    rebalance_to_target clamp_portfolio 7 1 5 30 1 = Ok (pf', Some t) /\
    0 <= cash pf'.
Proof.
  eexists. eexists. split; [reflexivity|].
  eapply (cash_nonneg_after_buy clamp_portfolio _ 7 1 5 30 1 _).
  - discriminate.
  - reflexivity.
  - discriminate.
  - reflexivity.
  - reflexivity.
Defined.

(** C3. On doubles the clamp does not keep the cash non-negative. With cash
    30.24, nothing held, [max_position_pct] 1, open and fill price 28 and a
    commission of 2.24, one share is wanted; 28 + 2.24 rounds to
    30.240000000000002, above the cash, so the buy is clamped; 30.24 - 2.24
    rounds to 28, which affords one share; the buy of one share is executed
    at the same cost and leaves a cash of -2^-48, about -3.55e-15, although
    cash, fill price and commission satisfy the preconditions. *)
Theorem clamped_buy_overdraws_on_binary64 :
  PrimFloat.leb 0 (Binary64Ledger.cash Binary64Ledger.overdraft_portfolio)
    = true /\
  PrimFloat.ltb 0 28 = true /\
  PrimFloat.leb 0 Binary64Ledger.overdraft_commission = true /\
  PrimFloat.add 28 Binary64Ledger.overdraft_commission
    = 0x1.e3d70a3d70a3ep+4%float /\
  PrimFloat.sub (Binary64Ledger.cash Binary64Ledger.overdraft_portfolio)
    Binary64Ledger.overdraft_commission = 28%float /\
  exists pf' t,
    Binary64Ledger.rebalance_to_target Binary64Ledger.overdraft_portfolio
      1 1 28 28 Binary64Ledger.overdraft_commission = Ok (pf', Some t) /\
    Binary64Ledger.trade_side t = BUY /\
    Binary64Ledger.trade_qty t = 1%Z /\
    Binary64Ledger.position_qty pf' = 1%Z /\
    Binary64Ledger.cash pf' = (-0x1p-48)%float /\
    PrimFloat.ltb (Binary64Ledger.cash pf') 0 = true.
Proof.
  repeat (split; [vm_compute; reflexivity|]).
  eexists. eexists.
  split; [vm_compute; reflexivity|].
  repeat split.
Qed.



(** ** The two sizings *)

(** C9. At a positive open the sizing of the loop and the sizing inside
    [rebalance_to_target] are the same floor, give the same desired quantity
    and so the same delta; whenever the call then executes a trade, the side
    the loop picked for the slippage is the sign of the executed change of
    position. *)
Theorem loop_and_portfolio_sizing_agree :
  forall (lim : RiskLimits) (pf : Portfolio) (o : Q) (target : Z),
    limits pf = lim ->
    0 < o ->
    target = 0%Z \/ target = 1%Z ->
    let desired := spec_desired_qty lim (equity_at_open pf o) o target in
    let delta := (desired - position_qty pf)%Z in
    desired_qty pf target (equity_at_open pf o) o = Ok desired /\
    loop_delta lim pf o target = Ok delta /\
    (forall (d : Timestamp) (f c : Q) (pf' : Portfolio) (t : Trade),
        rebalance_to_target pf d target o f c = Ok (pf', Some t) ->
        executed_sign pf pf' = side_of_delta delta /\
        (trade_side t = BUY <-> side_of_delta delta = 1%Z) /\
        (trade_side t = SELL <-> side_of_delta delta = (-1)%Z)).
Proof.
  intros lim pf o target Hlim Ho Htarget desired delta.
  assert (Hnz : ~ o == 0) by lra.
  assert (Hdes : desired_qty pf target (equity_at_open pf o) o = Ok desired).
  { unfold desired_qty, _max_allowed_qty, desired, spec_desired_qty.
    rewrite Hlim. destruct (target =? 1)%Z; [|reflexivity].
    apply floordiv_ok. exact Hnz. }
  split; [exact Hdes|]. split.
  - unfold loop_delta. fold (equity_at_open pf o).
    rewrite (floordiv_ok _ _ Hnz). reflexivity.
  - intros d f c pf' t Hcall.
    unfold rebalance_to_target in Hcall.
    fold (equity_at_open pf o) in Hcall.
    destruct (_kill_switch pf); [discriminate|].
    destruct (negb _); [discriminate|].
    rewrite Hdes in Hcall. cbn [bind] in Hcall. fold delta in Hcall.
    unfold executed_sign, side_of_delta.
    destruct (delta =? 0)%Z eqn:Hz; [discriminate|].
    apply Z.eqb_neq in Hz.
    destruct (0 <? delta)%Z eqn:Hpos.
    + apply Z.ltb_lt in Hpos.
      destruct (Qlt_bool (cash pf) _).
      * destruct (floordiv (cash pf - c) f) as [q|e]; [|discriminate].
        cbn [bind] in Hcall.
        destruct (q <=? 0)%Z eqn:Hq; [discriminate|].
        apply Z.leb_gt in Hq.
        injection Hcall as <- <-. simpl.
        replace (position_qty pf + q - position_qty pf)%Z with q by lia.
        rewrite (Z.sgn_pos q) by exact Hq.
        repeat split; intros; try reflexivity; discriminate.
      * injection Hcall as <- <-. simpl.
        replace (position_qty pf + Z.abs delta - position_qty pf)%Z
          with (Z.abs delta) by lia.
        rewrite (Z.sgn_pos (Z.abs delta)) by lia.
        repeat split; intros; try reflexivity; discriminate.
    + apply Z.ltb_ge in Hpos.
      injection Hcall as <- <-. simpl.
      replace (position_qty pf - Z.abs delta - position_qty pf)%Z
        with (- Z.abs delta)%Z by lia.
      rewrite (Z.sgn_neg (- Z.abs delta)) by lia.
      repeat split; intros; try reflexivity; discriminate.
Qed.

Lemma loop_and_portfolio_sizing_agree_witness :
  desired_qty clamp_portfolio 1 (equity_at_open clamp_portfolio 5) 5 = Ok 5%Z /\
  loop_delta default_RiskLimits clamp_portfolio 5 1 = Ok 5%Z.
Proof.
  refine (let H := loop_and_portfolio_sizing_agree default_RiskLimits
                     clamp_portfolio 5 1%Z _ _ _ in
          conj (proj1 H) (proj1 (proj2 H))).
  - reflexivity.
  - reflexivity.
  - right. reflexivity.
Defined.

(** ** Fill price *)

(** C6. At a positive reference price the fill price is
    [price * (1 + (slippage_bps / 10000) * side)] for both sides and every
    slippage; 200 bps at a price of 100 fill a buy at 102 and a sell at 98,
    as rationals and, bit for bit, as binary64 values. *)
Theorem fill_price_formula :
  (forall (price : Q) (side : Z) (bps : Q),
      0 < price ->
      side = 1%Z \/ side = (-1)%Z ->
      apply_slippage price side bps
        = Ok (price * (1 + (bps / 10000) * inject_Z side))) /\
  returns (apply_slippage 100 1 200) 102 /\
  returns (apply_slippage 100 (-1) 200) 98 /\
  Binary64.apply_slippage 100%float 1 200%float = Ok 102%float /\
  Binary64.apply_slippage 100%float (-1) 200%float = Ok 98%float.
Proof.
  split; [|repeat split].
  intros price side bps Hprice _.
  unfold apply_slippage.
  apply Qle_bool_false_iff in Hprice. rewrite Hprice. reflexivity.
Qed.

Lemma fill_price_formula_witness :
  apply_slippage (7 # 2) (-1) 25
    = Ok ((7 # 2) * (1 + (25 / 10000) * inject_Z (-1))).
Proof.
  apply (proj1 fill_price_formula (7 # 2) (-1)%Z 25).
  - reflexivity.
  - right. reflexivity.
Defined.

(** ** Construction *)

(** C8, as stated, fails: a portfolio is built from limits outside (0,1]. *)
Lemma malformed_limits_accepted :
  ~ well_formed_limits malformed_limits /\
  exists pf, Portfolio_init 100 malformed_limits = Ok pf.
Proof.
  split.
  - intros [[_ H] _]. exact (H eq_refl).
  - eexists. reflexivity.
Qed.

(** C8, amended. Construction raises exactly when [initial_cash <= 0]; with
    [initial_cash > 0] it succeeds for every pair of risk-limit fractions,
    which are stored as given. *)
Theorem portfolio_init_validates_cash_only :
  forall (c : Q) (lim : RiskLimits),
    (c <= 0 -> Portfolio_init c lim = Raise ValueError) /\
    (0 < c -> exists pf, Portfolio_init c lim = Ok pf /\ fresh pf c lim).
Proof.
  intros c lim. unfold Portfolio_init. split.
  - intro H. apply Qle_bool_iff in H. rewrite H. reflexivity.
  - intro H. apply Qle_bool_false_iff in H. rewrite H.
    eexists. split; [reflexivity|]. repeat split.
Qed.

Lemma portfolio_init_validates_cash_only_witness :
  Portfolio_init (-5) default_RiskLimits = Raise ValueError /\
  exists pf, Portfolio_init 100 malformed_limits = Ok pf /\
             fresh pf 100 malformed_limits.
Proof.
  split.
  - apply (proj1 (portfolio_init_validates_cash_only (-5) default_RiskLimits)).
    discriminate.
  - apply (proj2 (portfolio_init_validates_cash_only 100 malformed_limits)).
    reflexivity.
Defined.

(** ** Signals *)

Lemma combine_map_same {A B C : Type} (f : A -> B) (g : A -> C) (l : list A) :
  combine (map f l) (map g l) = map (fun x => (f x, g x)) l.
Proof.
  induction l as [|x l IH]; simpl; [reflexivity | rewrite IH; reflexivity].
Qed.

(** The target series, entry by entry. *)
Lemma generate_ma_crossover_signals_pointwise (close : list Q)
    (params : MACrossoverParams) (long_only : bool) :
  generate_ma_crossover_signals close params long_only =
    map (fun i => signal_at long_only
                    (rolling_mean_at (fast params) close i)
                    (rolling_mean_at (slow params) close i))
        (seq 0 (length close)).
Proof.
  unfold generate_ma_crossover_signals, rolling_mean.
  rewrite combine_map_same, map_map. reflexivity.
Qed.

Lemma generate_ma_crossover_signals_length (close : list Q)
    (params : MACrossoverParams) (long_only : bool) :
  length (generate_ma_crossover_signals close params long_only) = length close.
Proof.
  rewrite generate_ma_crossover_signals_pointwise.
  rewrite length_map, length_seq. reflexivity.
Qed.

Lemma signal_at_long_only (fm sm : option Q) :
  signal_at true fm sm = 0%Z \/ signal_at true fm sm = 1%Z.
Proof.
  unfold signal_at. destruct (nan_gt fm sm); auto.
Qed.

(** C7. In long/short mode the target of a bar is +1 where the fast average
    is above the slow one, -1 where it is below, 0 on a tie, but -1, not 0,
    where either average is undefined: on closes 1, 2, 3 with windows 1 and 2
    the first bar, which has no slow average, gets -1. *)
Theorem long_short_warmup_is_short :
  (forall (close : list Q) (params : MACrossoverParams),
      generate_ma_crossover_signals close params false =
        map (fun i => signal_at false
                        (rolling_mean_at (fast params) close i)
                        (rolling_mean_at (slow params) close i))
            (seq 0 (length close))) /\
  (forall a b : Q,
      (b < a -> signal_at false (Some a) (Some b) = 1%Z) /\
      (a < b -> signal_at false (Some a) (Some b) = (-1)%Z) /\
      (a == b -> signal_at false (Some a) (Some b) = 0%Z)) /\
  (forall m : option Q,
      signal_at false None m = (-1)%Z /\ signal_at false m None = (-1)%Z) /\
  rolling_mean 2 [1; 2; 3] = [None; Some (3 # 2); Some (5 # 2)] /\
  generate_ma_crossover_signals [1; 2; 3] {| fast := 1; slow := 2 |} false
    = [(-1)%Z; 1%Z; 1%Z].
Proof.
  split; [|split; [|split; [|split]]].
  - intros close params. apply generate_ma_crossover_signals_pointwise.
  - intros a b. unfold signal_at, nan_gt, nan_eq. repeat split.
    + intro H. assert (Hne : Qeq_bool a b = false).
      { destruct (Qeq_bool a b) eqn:E; [|reflexivity].
        apply Qeq_bool_eq in E. lra. }
      apply Qlt_bool_iff in H. rewrite H, Hne. reflexivity.
    + intro H. assert (Hne : Qeq_bool a b = false).
      { destruct (Qeq_bool a b) eqn:E; [|reflexivity].
        apply Qeq_bool_eq in E. lra. }
      assert (Hgt : Qlt_bool b a = false)
        by (apply Qlt_bool_false_iff; lra).
      rewrite Hgt, Hne. reflexivity.
    + intro H. apply Qeq_eq_bool in H. rewrite H.
      destruct (Qlt_bool b a); reflexivity.
  - intro m. unfold signal_at, nan_gt, nan_eq.
    destruct m; split; reflexivity.
  - reflexivity.
  - reflexivity.
Qed.

Lemma long_short_warmup_is_short_witness :
  signal_at false (Some 3) (Some 2) = 1%Z /\
  signal_at false (Some 2) (Some 3) = (-1)%Z /\
  signal_at false (Some (2 # 2)) (Some 1) = 0%Z.
Proof.
  pose proof (proj1 (proj2 long_short_warmup_is_short)) as H.
  split; [|split].
  - apply (proj1 (H 3 2)). reflexivity.
  - apply (proj1 (proj2 (H 2 3))). reflexivity.
  - apply (proj2 (proj2 (H (2 # 2) 1))). reflexivity.
Defined.

(** ** One-bar lag *)

Lemma firstn_S_snoc {A : Type} (l : list A) :
  forall (n : nat) (x : A),
    nth_error l n = Some x -> firstn (S n) l = firstn n l ++ [x].
Proof.
  induction l as [|y l IH]; intros n x H.
  - destruct n; discriminate.
  - destruct n as [|n].
    + injection H as ->. reflexivity.
    + simpl in H. change (firstn (S (S n)) (y :: l)) with (y :: firstn (S n) l).
      rewrite (IH n x H). reflexivity.
Qed.

Lemma firstn_length_lt {A : Type} (l : list A) (n : nat) (x : A) :
  nth_error l n = Some x -> length (firstn n l) = n.
Proof.
  intro H. apply firstn_length_le.
  assert (n < length l)%nat by (apply nth_error_Some; congruence). lia.
Qed.

(** The loop over bars [0..t] is the loop over bars [0..t-1] followed by the
    body on bar [t]. *)
Lemma run_prefix_S (em : ExecutionModel) (lim : RiskLimits)
    (rows : list Bar) (targets : list (option Z)) (pf0 : Portfolio)
    (t : nat) (row : Bar) (tg : option Z) :
  nth_error rows t = Some row ->
  nth_error targets t = Some tg ->
  run_prefix em lim rows targets pf0 (S t) =
    (' (pf, p) <- run_prefix em lim rows targets pf0 t ;;
     loop_body em lim pf p row tg).
Proof.
  intros Hrow Htg. unfold run_prefix.
  rewrite (firstn_S_snoc _ _ _ Hrow), (firstn_S_snoc _ _ _ Htg).
  rewrite event_loop_app.
  - destruct (event_loop em lim (firstn t rows) (firstn t targets) pf0 None)
      as [[pf p]|e]; [|reflexivity].
    simpl. destruct (loop_body em lim pf p row tg) as [[pf' p']|e];
      reflexivity.
  - rewrite (firstn_length_lt _ _ _ Hrow), (firstn_length_lt _ _ _ Htg).
    reflexivity.
Qed.

(** C2. The target executed at the open of bar [t >= 1] is the signal of bar
    [t-1], undefined read as 0: the loop reaches bar [t] with exactly that
    pending target, and its run over bars [0..t] is the run over [0..t-1]
    followed by that bar's mark-to-market, the execution of that target and
    the storing of bar [t]'s own signal. A bar entered with no pending target
    executes nothing, the final portfolio does not depend on the signal of the
    last bar, and [main] runs the loop from a pending target of none on the
    series of the signal generator. *)
Theorem one_bar_lag :
  (forall (em : ExecutionModel) (lim : RiskLimits) (rows : list Bar)
          (targets : list (option Z)) (pf0 pf : Portfolio) (p : option Z)
          (t : nat) (row : Bar) (tg prev : option Z),
      (1 <= t)%nat ->
      nth_error rows t = Some row ->
      nth_error targets t = Some tg ->
      nth_error targets (t - 1) = Some prev ->
      run_prefix em lim rows targets pf0 t = Ok (pf, p) ->
      p = Some (next_pending prev) /\
      run_prefix em lim rows targets pf0 (S t) =
        (pf' <- execute_pending em lim
                  (mark_to_market pf (row_Date row) (row_Close row))
                  (row_Date row) row (Some (next_pending prev)) ;;
         Ok (pf', Some (next_pending tg)))) /\
  (forall (em : ExecutionModel) (lim : RiskLimits) (pf0 : Portfolio)
          (row : Bar) (tg : option Z),
      loop_body em lim pf0 None row tg =
        Ok (mark_to_market pf0 (row_Date row) (row_Close row),
            Some (next_pending tg))) /\
  (forall (em : ExecutionModel) (lim : RiskLimits) (rows : list Bar)
          (targets : list (option Z)) (tg tg' : option Z)
          (pf0 : Portfolio) (p0 : option Z),
      length rows = S (length targets) ->
      final_portfolio (event_loop em lim rows (targets ++ [tg]) pf0 p0) =
      final_portfolio (event_loop em lim rows (targets ++ [tg']) pf0 p0)) /\
  (forall (args : Args) (ohlcv : list Bar),
      (Nat.max (Pos.to_nat (arg_fast args)) (Pos.to_nat (arg_slow args)) + 2
         <= length ohlcv)%nat ->
      main args ohlcv =
        (pf0 <- Portfolio_init (arg_cash args)
                  {| max_position_pct := arg_max_position_pct args;
                     max_drawdown := arg_max_dd args |} ;;
         final_portfolio
           (event_loop
              {| slippage_bps := arg_slippage_bps args;
                 commission := arg_commission args |}
              {| max_position_pct := arg_max_position_pct args;
                 max_drawdown := arg_max_dd args |}
              ohlcv
              (map Some
                 (generate_ma_crossover_signals (map row_Close ohlcv)
                    {| fast := arg_fast args; slow := arg_slow args |} true))
              pf0 None))).
Proof.
  split; [|split; [|split]]; cycle 3.
  { intros args ohlcv Hlen. unfold main.
    apply Nat.ltb_ge in Hlen. rewrite Hlen. reflexivity. }
  - intros em lim rows targets pf0 pf p t row tg prev Ht Hrow Htg Hprev Hrun.
    destruct t as [|t]; [lia|].
    replace (S t - 1)%nat with t in Hprev by lia.
    destruct (nth_error rows t) as [row1|] eqn:Erow1.
    2:{ apply nth_error_None in Erow1.
        assert (S t < length rows)%nat by (apply nth_error_Some; congruence).
        lia. }
    assert (Hp : p = Some (next_pending prev)).
    { rewrite (run_prefix_S _ _ _ _ _ _ _ _ Erow1 Hprev) in Hrun.
      apply bind_Ok_inv in Hrun. destruct Hrun as ([pf1 p1] & _ & Hbody).
      apply loop_body_inv in Hbody. tauto. }
    split; [exact Hp|].
    rewrite (run_prefix_S _ _ _ _ _ _ _ _ Hrow Htg), Hrun. subst p.
    reflexivity.
  - reflexivity.
  - intros em lim rows targets tg tg' pf0 p0 Hlen.
    destruct (exists_last (l := rows)) as (rows' & row & ->).
    { intro E. subst rows. discriminate. }
    rewrite length_app in Hlen. simpl in Hlen.
    assert (Hlen' : length rows' = length targets) by lia.
    rewrite !event_loop_app by exact Hlen'.
    destruct (event_loop em lim rows' targets pf0 p0) as [[pf p]|e];
      [|reflexivity].
    simpl. unfold loop_body.
    destruct (execute_pending em lim _ _ row p) as [pf'|e]; reflexivity.
Qed.

Lemma one_bar_lag_witness :
  run_prefix default_ExecutionModel default_RiskLimits
    [bar 1 10 10; bar 2 10 11; bar 3 12 12] [Some 1%Z; None; Some 1%Z]
    (sample_portfolio 1000 0 false) 2
  = (pf' <- execute_pending default_ExecutionModel default_RiskLimits
              (mark_to_market
                 (mark_to_market (sample_portfolio 1000 0 false) 1 10) 2 11)
              2 (bar 2 10 11) (Some 1%Z) ;;
     Ok (pf', Some 0%Z)).
Proof.
  refine (proj2 (proj1 one_bar_lag default_ExecutionModel default_RiskLimits
                   [bar 1 10 10; bar 2 10 11; bar 3 12 12]
                   [Some 1%Z; None; Some 1%Z]
                   (sample_portfolio 1000 0 false)
                   (mark_to_market (sample_portfolio 1000 0 false) 1 10)
                   (Some 1%Z) 1%nat (bar 2 10 11) None (Some 1%Z)
                   _ _ _ _ _)).
  - apply le_n.
  - reflexivity.
  - reflexivity.
  - reflexivity.
  - reflexivity.
Defined.

(** ** The run returns *)

Lemma sizing_at_open (lim : RiskLimits) (pf : Portfolio) (o : Q) (target : Z) :
  limits pf = lim ->
  ~ o == 0 ->
  desired_qty pf target (equity_at_open pf o) o
    = Ok (spec_desired_qty lim (equity_at_open pf o) o target) /\
  loop_delta lim pf o target
    = Ok (spec_desired_qty lim (equity_at_open pf o) o target
          - position_qty pf)%Z.
Proof.
  intros Hlim Ho. split.
  - unfold desired_qty, _max_allowed_qty, spec_desired_qty.
    rewrite Hlim. destruct (target =? 1)%Z; [|reflexivity].
    apply floordiv_ok. exact Ho.
  - unfold loop_delta. fold (equity_at_open pf o).
    rewrite (floordiv_ok _ _ Ho). reflexivity.
Qed.

(** A call with a valid target returns as soon as no division by zero can
    occur: a non-zero open, and a non-zero fill price if it is a buy. *)
Lemma rebalance_to_target_total (pf : Portfolio) (d : Timestamp) (target : Z)
    (o f c : Q) (desired : Z) :
  valid_target target ->
  desired_qty pf target (equity_at_open pf o) o = Ok desired ->
  ((0 < desired - position_qty pf)%Z -> ~ f == 0) ->
  exists pf' ot, rebalance_to_target pf d target o f c = Ok (pf', ot).
Proof.
  intros Htarget Hdes Hf. unfold rebalance_to_target.
  fold (equity_at_open pf o).
  destruct (_kill_switch pf); [eauto|].
  assert (Hvalid : negb ((target =? 0)%Z || (target =? 1)%Z) = false)
    by (destruct Htarget; subst target; reflexivity).
  rewrite Hvalid, Hdes. cbn [bind].
  destruct (desired - position_qty pf =? 0)%Z; [eauto|].
  destruct (0 <? desired - position_qty pf)%Z eqn:Hpos; [|eauto].
  apply Z.ltb_lt in Hpos.
  destruct (Qlt_bool (cash pf) _); [|eauto].
  rewrite (floordiv_ok _ _ (Hf Hpos)). cbn [bind].
  destruct (Qfloor _ <=? 0)%Z; eauto.
Qed.

Lemma execute_pending_total (em : ExecutionModel) (lim : RiskLimits)
    (pf : Portfolio) (dt : Timestamp) (row : Bar) (p : option Z) :
  limits pf = lim ->
  0 < row_Open row ->
  0 <= slippage_bps em ->
  valid_pending p ->
  exists pf', execute_pending em lim pf dt row p = Ok pf'.
Proof.
  intros Hlim Ho Hbps Hp. unfold execute_pending.
  destruct p as [target|]; [|eauto]. simpl in Hp.
  destruct (kill_switch pf); [eauto|].
  assert (Hnz : ~ row_Open row == 0) by lra.
  destruct (sizing_at_open lim pf (row_Open row) target Hlim Hnz)
    as [Hdes Hdelta].
  rewrite Hdelta. cbn [bind].
  set (delta := (spec_desired_qty lim (equity_at_open pf (row_Open row))
                   (row_Open row) target - position_qty pf)%Z) in *.
  destruct (delta =? 0)%Z eqn:Hz; [eauto|].
  apply Z.eqb_neq in Hz.
  unfold simulate_fill, apply_slippage.
  assert (Hq : (Z.abs delta <=? 0)%Z = false) by (apply Z.leb_gt; lia).
  assert (Hprice : Qle_bool (row_Open row) 0 = false)
    by (apply Qle_bool_false_iff; exact Ho).
  rewrite Hq, Hprice. cbn [bind].
  destruct (rebalance_to_target_total pf dt target (row_Open row)
              (row_Open row *
                 (1 + slippage_bps em / 10000 * inject_Z (side_of_delta delta)))
              (commission em) _ Hp Hdes) as (pf' & ot & Hcall).
  - fold delta. intro Hpos. unfold side_of_delta.
    apply Z.ltb_lt in Hpos. rewrite Hpos.
    assert (0 < row_Open row * (1 + slippage_bps em / 10000 * inject_Z 1));
      [|lra].
    apply Qmult_lt_0_compat; [exact Ho|].
    assert (0 <= slippage_bps em / 10000 * inject_Z 1); [|lra].
    apply Qmult_le_0_compat; [|discriminate].
    apply Qle_shift_div_l; [reflexivity | lra].
  - rewrite Hcall. cbn [bind]. eauto.
Qed.

Lemma loop_body_total (em : ExecutionModel) (lim : RiskLimits)
    (pf : Portfolio) (p : option Z) (row : Bar) (tg : option Z) :
  limits pf = lim ->
  0 < row_Open row ->
  0 <= slippage_bps em ->
  valid_pending p ->
  valid_signal tg ->
  exists pf' p',
    loop_body em lim pf p row tg = Ok (pf', p') /\
    limits pf' = lim /\ valid_pending p'.
Proof.
  intros Hlim Ho Hbps Hp Htg. unfold loop_body.
  destruct (execute_pending_total em lim
              (mark_to_market pf (row_Date row) (row_Close row))
              (row_Date row) row p Hlim Ho Hbps Hp) as (pf' & Hex).
  rewrite Hex. cbn [bind].
  exists pf', (Some (next_pending tg)). split; [reflexivity|].
  split; [|exact Htg].
  apply execute_pending_frame in Hex. destruct Hex as (_ & _ & Hl & _).
  rewrite Hl. exact Hlim.
Qed.

Lemma event_loop_total (em : ExecutionModel) (lim : RiskLimits)
    (rows : list Bar) :
  forall (targets : list (option Z)) (pf : Portfolio) (p : option Z),
    length rows = length targets ->
    limits pf = lim ->
    0 <= slippage_bps em ->
    Forall (fun row => 0 < row_Open row) rows ->
    Forall valid_signal targets ->
    valid_pending p ->
    exists pf' p', event_loop em lim rows targets pf p = Ok (pf', p').
Proof.
  induction rows as [|row rows IH];
    intros targets pf p Hlen Hlim Hbps Hrows Htargets Hp.
  - simpl. eauto.
  - destruct targets as [|tg targets]; [discriminate|].
    simpl in Hlen. injection Hlen as Hlen.
    inversion Hrows as [|? ? Ho Hrows']; subst.
    inversion Htargets as [|? ? Htg Htargets']; subst.
    destruct (loop_body_total em (limits pf) pf p row tg eq_refl Ho Hbps Hp Htg)
      as (pf1 & p1 & Hbody & Hlim1 & Hp1).
    simpl. rewrite Hbody. cbn [bind].
    apply IH; assumption.
Qed.

(** ** Equity curve *)

Lemma loop_body_snapshot (em : ExecutionModel) (lim : RiskLimits)
    (pf pf' : Portfolio) (p p' : option Z) (row : Bar) (tg : option Z) :
  loop_body em lim pf p row tg = Ok (pf', p') ->
  exists s,
    equity_curve pf' = equity_curve pf ++ [s] /\
    Date s = row_Date row /\ Close s = row_Close row /\
    Cash s = cash pf /\ PositionQty s = position_qty pf.
Proof.
  intro H. apply loop_body_inv in H. destruct H as [_ H].
  apply execute_pending_frame in H. destruct H as (_ & Hcurve & _).
  destruct (mark_to_market_snapshot pf (row_Date row) (row_Close row))
    as (s & Hs & Hd & Hc & Hcash & Hq & _).
  exists s. rewrite Hcurve. auto.
Qed.

Lemma event_loop_equity_curve (em : ExecutionModel) (lim : RiskLimits)
    (rows : list Bar) :
  forall (targets : list (option Z)) (pf pf' : Portfolio) (p p' : option Z),
    event_loop em lim rows targets pf p = Ok (pf', p') ->
    exists snaps,
      equity_curve pf' = equity_curve pf ++ snaps /\
      one_snapshot_per_bar snaps rows.
Proof.
  induction rows as [|row rows IH]; intros targets pf pf' p p' H.
  - injection H as <- <-. exists []. rewrite app_nil_r.
    repeat split.
  - destruct targets as [|tg targets]; [discriminate|].
    simpl in H. apply bind_Ok_inv in H.
    destruct H as ([pf1 p1] & Hbody & Hrest).
    apply loop_body_snapshot in Hbody.
    destruct Hbody as (s & Hs & Hd & Hc & _).
    destruct (IH _ _ _ _ _ Hrest) as (snaps & Hsn & Hlen & Hdates & Hcloses).
    exists (s :: snaps). split.
    + rewrite Hsn, Hs, <- app_assoc. reflexivity.
    + repeat split; simpl; congruence.
Qed.

Lemma main_inv (args : Args) (ohlcv : list Bar) (pf : Portfolio) :
  main args ohlcv = Ok pf ->
  exists pf0 p,
    Portfolio_init (arg_cash args)
      {| max_position_pct := arg_max_position_pct args;
         max_drawdown := arg_max_dd args |} = Ok pf0 /\
    event_loop
      {| slippage_bps := arg_slippage_bps args;
         commission := arg_commission args |}
      {| max_position_pct := arg_max_position_pct args;
         max_drawdown := arg_max_dd args |}
      ohlcv
      (map Some (generate_ma_crossover_signals (map row_Close ohlcv)
                   {| fast := arg_fast args; slow := arg_slow args |} true))
      pf0 None = Ok (pf, p).
Proof.
  unfold main. intro H.
  destruct (_ <? _)%nat; [discriminate|].
  apply bind_Ok_inv in H. destruct H as (pf0 & Hinit & H).
  apply bind_Ok_inv in H. destruct H as ([pf1 p] & Hloop & H).
  injection H as <-. eauto.
Qed.

Lemma long_only_signals_valid (close : list Q) (params : MACrossoverParams) :
  Forall valid_signal
    (map Some (generate_ma_crossover_signals close params true)).
Proof.
  rewrite generate_ma_crossover_signals_pointwise, map_map.
  apply Forall_forall. intros tg Hin.
  apply in_map_iff in Hin. destruct Hin as (i & <- & _).
  apply signal_at_long_only.
Qed.

(** C5. A run that reaches the end of the loop has appended one snapshot per
    bar, in bar order, carrying the bar's date and close; in every bar the
    snapshot is the one [mark_to_market] makes of the portfolio as it enters
    the bar (its cash and position are those before the bar's order), and the
    order is executed on the marked portfolio. [main] returns such a run
    whenever there are enough bars, the cash is positive, the slippage is not
    negative and every open is positive. *)
Theorem one_snapshot_per_bar_before_orders :
  (forall (em : ExecutionModel) (lim : RiskLimits) (rows : list Bar)
          (targets : list (option Z)) (pf0 pf : Portfolio) (p0 p : option Z),
      event_loop em lim rows targets pf0 p0 = Ok (pf, p) ->
      exists snaps,
        equity_curve pf = equity_curve pf0 ++ snaps /\
        one_snapshot_per_bar snaps rows) /\
  (forall (em : ExecutionModel) (lim : RiskLimits) (pf pf' : Portfolio)
          (p p' : option Z) (row : Bar) (tg : option Z),
      loop_body em lim pf p row tg = Ok (pf', p') ->
      execute_pending em lim (mark_to_market pf (row_Date row) (row_Close row))
        (row_Date row) row p = Ok pf' /\
      exists s,
        equity_curve pf' = equity_curve pf ++ [s] /\
        Date s = row_Date row /\ Close s = row_Close row /\
        Cash s = cash pf /\ PositionQty s = position_qty pf) /\
  (forall (args : Args) (ohlcv : list Bar) (pf : Portfolio),
      main args ohlcv = Ok pf ->
      one_snapshot_per_bar (equity_curve pf) ohlcv) /\
  (forall (args : Args) (ohlcv : list Bar),
      (Nat.max (Pos.to_nat (arg_fast args)) (Pos.to_nat (arg_slow args)) + 2
         <= length ohlcv)%nat ->
      0 < arg_cash args ->
      0 <= arg_slippage_bps args ->
      Forall (fun row => 0 < row_Open row) ohlcv ->
      exists pf, main args ohlcv = Ok pf).
Proof.
  split; [|split; [|split]].
  - intros em lim rows targets pf0 pf p0 p H.
    eapply event_loop_equity_curve. exact H.
  - intros em lim pf pf' p p' row tg H. split.
    + apply loop_body_inv in H. tauto.
    + eapply loop_body_snapshot. exact H.
  - intros args ohlcv pf H.
    apply main_inv in H. destruct H as (pf0 & p & Hinit & Hloop).
    apply event_loop_equity_curve in Hloop.
    destruct Hloop as (snaps & Hcurve & Hsnaps).
    unfold Portfolio_init in Hinit.
    destruct (Qle_bool (arg_cash args) 0); [discriminate|].
    injection Hinit as <-. simpl in Hcurve. rewrite Hcurve. exact Hsnaps.
  - intros args ohlcv Hlen Hcash Hbps Hopen. unfold main.
    assert (Hlt : (length ohlcv <?
                     Nat.max (Pos.to_nat (arg_fast args))
                       (Pos.to_nat (arg_slow args)) + 2)%nat = false)
      by (apply Nat.ltb_ge; exact Hlen).
    rewrite Hlt. unfold Portfolio_init.
    apply Qle_bool_false_iff in Hcash. rewrite Hcash. cbn [bind].
    edestruct event_loop_total as (pf & p & Hrun);
      [| | | exact Hopen | apply long_only_signals_valid | | ].
    5:{ rewrite Hrun. cbn [bind]. eauto. }
    + rewrite length_map, generate_ma_crossover_signals_length, length_map.
      reflexivity.
    + reflexivity.
    + exact Hbps.
    + exact I.
Qed.

Lemma one_snapshot_per_bar_before_orders_witness :
  exists pf,
    main sample_args sample_ohlcv = Ok pf /\
    one_snapshot_per_bar (equity_curve pf) sample_ohlcv.
Proof.
  destruct (proj2 (proj2 (proj2 one_snapshot_per_bar_before_orders))
              sample_args sample_ohlcv) as (pf & Hmain).
  - apply Nat.leb_le. reflexivity.
  - reflexivity.
  - discriminate.
  - repeat (constructor; [reflexivity|]). constructor.
  - exists pf. split; [exact Hmain|].
    exact (proj1 (proj2 (proj2 one_snapshot_per_bar_before_orders))
             sample_args sample_ohlcv pf Hmain).
Defined.

(** * Further properties of the ledger, the broker, the signals and the run *)

(** ** Every outcome of a call *)

(** A call that returns either left the portfolio alone, or bought (in full
    or clamped), or sold down to the desired quantity. *)
Lemma rebalance_to_target_cases (pf : Portfolio) (d : Timestamp) (target : Z)
    (o f c : Q) (r : Portfolio * option Trade) :
  rebalance_to_target pf d target o f c = Ok r ->
  r = (pf, None) \/
  exists desired,
    _kill_switch pf = false /\
    valid_target target /\
    desired_qty pf target (equity_at_open pf o) o = Ok desired /\
    (((0 < desired - position_qty pf)%Z /\
      ((inject_Z (desired - position_qty pf) * f + c <= cash pf /\
        r = executed_buy pf d (desired - position_qty pf) f c) \/
       (cash pf < inject_Z (desired - position_qty pf) * f + c /\
        ~ f == 0 /\
        (0 < Qfloor ((cash pf - c) / f))%Z /\
        r = executed_buy pf d (Qfloor ((cash pf - c) / f)) f c))) \/
     ((desired - position_qty pf < 0)%Z /\
      r = executed_sell pf d (position_qty pf - desired) f c)).
Proof.
  unfold rebalance_to_target. fold (equity_at_open pf o). intro H.
  destruct (_kill_switch pf) eqn:Hks; [injection H as <-; auto|].
  destruct (negb _) eqn:Hvalid; [discriminate|].
  apply negb_false_iff, orb_true_iff in Hvalid.
  assert (Htarget : valid_target target).
  { destruct Hvalid as [E|E]; apply Z.eqb_eq in E; [left|right]; exact E. }
  apply bind_Ok_inv in H. destruct H as (desired & Hdes & H).
  destruct (desired - position_qty pf =? 0)%Z eqn:Hz;
    [injection H as <-; auto|].
  apply Z.eqb_neq in Hz.
  destruct (0 <? desired - position_qty pf)%Z eqn:Hpos.
  - apply Z.ltb_lt in Hpos.
    rewrite (Z.abs_eq (desired - position_qty pf)) in H by lia.
    destruct (Qlt_bool (cash pf) _) eqn:Hcost.
    + apply Qlt_bool_iff in Hcost.
      apply bind_Ok_inv in H. destruct H as (q & Hq & H).
      apply floordiv_inv in Hq. destruct Hq as [Hf ->].
      destruct (Qfloor _ <=? 0)%Z eqn:Hq0; [injection H as <-; auto|].
      apply Z.leb_gt in Hq0. injection H as <-.
      right. exists desired. repeat split; try assumption.
      left. split; [exact Hpos|]. right. repeat split; assumption.
    + apply Qlt_bool_false_iff in Hcost. injection H as <-.
      right. exists desired. repeat split; try assumption.
      left. split; [exact Hpos|]. left. split; [exact Hcost | reflexivity].
  - apply Z.ltb_ge in Hpos. injection H as <-.
    right. exists desired. repeat split; try assumption.
    right. split; [lia|].
    unfold executed_sell.
    replace (Z.abs (desired - position_qty pf))
      with (position_qty pf - desired)%Z by lia.
    reflexivity.
Qed.

(** The desired quantity of a valid target at a non-zero open. *)
Lemma desired_qty_inv (pf : Portfolio) (target : Z) (equity o : Q)
    (desired : Z) :
  valid_target target ->
  desired_qty pf target equity o = Ok desired ->
  (target = 0%Z /\ desired = 0%Z) \/
  (target = 1%Z /\ ~ o == 0 /\
   desired = Qfloor (max_position_pct (limits pf) * equity / o)).
Proof.
  intros [->| ->]; unfold desired_qty; simpl.
  - intro H. injection H as <-. auto.
  - unfold _max_allowed_qty. intro H. apply floordiv_inv in H. right. tauto.
Qed.

(** ** Trades *)

Lemma returned_trade_facts (pf pf' : Portfolio) (d : Timestamp) (target : Z)
    (o f c : Q) (t : Trade) :
  rebalance_to_target pf d target o f c = Ok (pf', Some t) ->
  well_formed_trade t /\
  trade_date t = d /\ trade_price t = f /\ trade_commission t = c /\
  trades pf' = trades pf ++ [t].
Proof.
  intro H.
  apply rebalance_to_target_cases in H.
  destruct H as [H | (desired & _ & _ & _ & [[Hpos [[_ H] | (_ & _ & Hq & H)]]
                                            | [Hneg H]])];
    try discriminate;
    injection H as -> ->; unfold well_formed_trade; simpl;
    repeat split; try lia; assumption.
Qed.

(** X1. The trade a call returns has a positive quantity, the fill price and
    the commission of the call, the date of the call, a notional that is the
    product of quantity and price, and is the last entry of the trade log,
    whose earlier entries are untouched. *)
Theorem returned_trade_is_well_formed_and_logged :
  forall (pf pf' : Portfolio) (d : Timestamp) (target : Z) (o f c : Q)
         (t : Trade),
    rebalance_to_target pf d target o f c = Ok (pf', Some t) ->
    well_formed_trade t /\
    trade_date t = d /\ trade_price t = f /\ trade_commission t = c /\
    trades pf' = trades pf ++ [t].
Proof.
  intros pf pf' d target o f c t H.
  apply (returned_trade_facts _ _ _ _ _ _ _ _ H).
Qed.

Lemma returned_trade_is_well_formed_and_logged_witness :
  exists pf' t,
    rebalance_to_target clamp_portfolio 7 1 5 30 1 = Ok (pf', Some t) /\
    well_formed_trade t /\ trades pf' = [t].
Proof.
  eexists. eexists. split; [reflexivity|].
  refine (let H := returned_trade_is_well_formed_and_logged clamp_portfolio _
                     7%Z 1%Z 5 30 1 _ eq_refl in
          conj (proj1 H) (proj2 (proj2 (proj2 (proj2 H))))).
Defined.

(** ** Selling *)

(** X3. A sell is never clamped: the call that sells leaves exactly the
    desired quantity in the position, sells the whole excess over it, and
    credits the cash with the proceeds less the commission, whatever the cash
    was. *)
Theorem sell_reaches_desired_quantity :
  forall (pf pf' : Portfolio) (d : Timestamp) (target : Z) (o f c : Q)
         (t : Trade),
    rebalance_to_target pf d target o f c = Ok (pf', Some t) ->
    trade_side t = SELL ->
    desired_qty pf target (equity_at_open pf o) o = Ok (position_qty pf') /\
    (position_qty pf' < position_qty pf)%Z /\
    trade_qty t = (position_qty pf - position_qty pf')%Z /\
    cash pf' = cash pf + (inject_Z (trade_qty t) * f - c).
Proof.
  intros pf pf' d target o f c t H Hside.
  apply rebalance_to_target_cases in H.
  destruct H as [H | (desired & _ & _ & Hdes
                      & [[Hpos [[_ H] | (_ & _ & Hq & H)]] | [Hneg H]])];
    try discriminate;
    injection H as -> ->; try discriminate Hside.
  unfold commit_trade, mkTrade. cbn [position_qty trade_qty cash].
  replace (position_qty pf - (position_qty pf - desired))%Z with desired by lia.
  repeat split; try lia; exact Hdes.
Qed.

Lemma sell_reaches_desired_quantity_witness :
  exists pf' t,
    rebalance_to_target tripping_portfolio 7 0 10 10 1 = Ok (pf', Some t) /\
    position_qty pf' = 0%Z /\ trade_qty t = 100%Z.
Proof.
  eexists. eexists. split; [reflexivity|].
  refine (let H := sell_reaches_desired_quantity tripping_portfolio _
                     7%Z 0%Z 10 10 1 _ eq_refl eq_refl in
          conj eq_refl (proj1 (proj2 (proj2 H)))).
Defined.

(** X4. With the switch off, a target of 0 on a position that is not short
    never raises, whatever the prices and the commission, and leaves the
    position flat: nothing happens on an empty position, and a held position
    is sold whole in one trade. A second call with target 0 then returns
    none and changes nothing. *)
Theorem target_zero_liquidates :
  forall (pf : Portfolio) (d d' : Timestamp) (o f c o' f' c' : Q),
    kill_switch pf = false ->
    (0 <= position_qty pf)%Z ->
    exists pf' ot,
      rebalance_to_target pf d 0 o f c = Ok (pf', ot) /\
      position_qty pf' = 0%Z /\
      (position_qty pf = 0%Z -> pf' = pf /\ ot = None) /\
      ((0 < position_qty pf)%Z ->
       (pf', ot) = executed_sell pf d (position_qty pf) f c) /\
      rebalance_to_target pf' d' 0 o' f' c' = Ok (pf', None).
Proof.
  intros pf d d' o f c o' f' c' Hks Hpos.
  unfold kill_switch in Hks.
  assert (Hflat : forall (pf1 : Portfolio) (d1 : Timestamp) (o1 f1 c1 : Q),
             _kill_switch pf1 = false -> position_qty pf1 = 0%Z ->
             rebalance_to_target pf1 d1 0 o1 f1 c1 = Ok (pf1, None)).
  { intros pf1 d1 o1 f1 c1 Hk Hq. unfold rebalance_to_target.
    rewrite Hk. cbn [negb orb Z.eqb desired_qty bind]. rewrite Hq.
    reflexivity. }
  destruct (Z.eq_dec (position_qty pf) 0) as [Hz | Hnz].
  - exists pf, None. rewrite Hflat by assumption.
    repeat split; try assumption; try lia.
    apply Hflat; assumption.
  - assert (Hcall : rebalance_to_target pf d 0 o f c
                      = Ok (executed_sell pf d (position_qty pf) f c)).
    { unfold rebalance_to_target. rewrite Hks.
      cbn [negb orb Z.eqb desired_qty bind].
      assert (E0 : (0 - position_qty pf =? 0)%Z = false)
        by (apply Z.eqb_neq; lia).
      assert (E1 : (0 <? 0 - position_qty pf)%Z = false)
        by (apply Z.ltb_ge; lia).
      rewrite E0, E1.
      replace (Z.abs (0 - position_qty pf)) with (position_qty pf) by lia.
      reflexivity. }
    eexists. eexists. split; [rewrite Hcall; reflexivity|].
    cbn [position_qty commit_trade]. repeat split; try lia.
    apply Hflat; [exact Hks|]. cbn [position_qty commit_trade]. lia.
Qed.

Lemma target_zero_liquidates_witness :
  exists pf' ot,
    rebalance_to_target tripping_portfolio 7 0 10 10 1 = Ok (pf', ot) /\
    position_qty pf' = 0%Z /\
    rebalance_to_target pf' 8 0 11 11 1 = Ok (pf', None).
Proof.
  destruct (target_zero_liquidates tripping_portfolio 7%Z 8%Z 10 10 1 11 11 1)
    as (pf' & ot & H1 & H2 & _ & _ & H3).
  - reflexivity.
  - discriminate.
  - exists pf', ot. auto.
Defined.

(** ** Position limits *)

(** With the switch off, a call that returns none found the position at or
    below the desired quantity. *)
Lemma rebalance_to_target_none_inv (pf pf' : Portfolio) (d : Timestamp)
    (target : Z) (o f c : Q) :
  _kill_switch pf = false ->
  rebalance_to_target pf d target o f c = Ok (pf', None) ->
  pf' = pf /\
  exists desired,
    desired_qty pf target (equity_at_open pf o) o = Ok desired /\
    (position_qty pf <= desired)%Z.
Proof.
  intros Hks H. unfold rebalance_to_target in H.
  fold (equity_at_open pf o) in H. rewrite Hks in H.
  destruct (negb _); [discriminate|].
  apply bind_Ok_inv in H. destruct H as (desired & Hdes & H).
  destruct (desired - position_qty pf =? 0)%Z eqn:Hz.
  - apply Z.eqb_eq in Hz. injection H as <-.
    split; [reflexivity|]. exists desired. split; [exact Hdes | lia].
  - destruct (0 <? desired - position_qty pf)%Z eqn:Hpos; [|discriminate].
    apply Z.ltb_lt in Hpos.
    destruct (Qlt_bool (cash pf) _); [|discriminate].
    apply bind_Ok_inv in H. destruct H as (q & _ & H).
    destruct (q <=? 0)%Z; [|discriminate].
    injection H as <-.
    split; [reflexivity|]. exists desired. split; [exact Hdes | lia].
Qed.




(** X6. A position that is not short stays so: with a non-negative
    [max_position_pct], a positive open and a non-negative equity at the
    open, the position after a call that returns is not negative. *)
Theorem position_stays_nonnegative :
  forall (pf pf' : Portfolio) (d : Timestamp) (target : Z) (o f c : Q)
         (ot : option Trade),
    (0 <= position_qty pf)%Z ->
    0 <= max_position_pct (limits pf) ->
    0 < o ->
    0 <= equity_at_open pf o ->
    rebalance_to_target pf d target o f c = Ok (pf', ot) ->
    (0 <= position_qty pf')%Z.
Proof.
  intros pf pf' d target o f c ot Hpos Hpct Ho Heq H.
  apply rebalance_to_target_cases in H.
  destruct H as [H | (desired & _ & Htarget & Hdes
                      & [[Hd [[_ H] | (_ & _ & Hq & H)]] | [Hneg H]])];
    try set (q := Qfloor ((cash pf - c) / f)) in *;
    injection H as -> _; cbn [position_qty commit_trade]; try lia.
  replace (position_qty pf - (position_qty pf - desired))%Z with desired by lia.
  apply desired_qty_inv in Hdes; [|exact Htarget].
  destruct Hdes as [[_ ->] | (_ & _ & ->)]; [lia|].
  rewrite <- (Qfloor_Z 0). apply Qfloor_resp_le.
  apply Qle_shift_div_l; [exact Ho|].
  setoid_replace (inject_Z 0 * o) with 0 by ring.
  apply Qmult_le_0_compat; assumption.
Qed.

Lemma position_stays_nonnegative_witness :
  exists pf' ot,
    rebalance_to_target tripping_portfolio 7 1 10 10 1 = Ok (pf', ot) /\
    (0 <= position_qty pf')%Z.
Proof.
  eexists. eexists. split; [reflexivity|].
  eapply (position_stays_nonnegative tripping_portfolio _ 7%Z 1%Z 10 10 1 _).
  - discriminate.
  - discriminate.
  - reflexivity.
  - discriminate.
  - reflexivity.
Defined.

(** ** A buy followed by a liquidation *)

Lemma rebalance_to_zero_sells_all (pf : Portfolio) (d : Timestamp) (o f c : Q) :
  _kill_switch pf = false ->
  (0 < position_qty pf)%Z ->
  rebalance_to_target pf d 0 o f c
    = Ok (executed_sell pf d (position_qty pf) f c).
Proof.
  intros Hks Hpos. unfold rebalance_to_target. rewrite Hks.
  cbn [negb orb Z.eqb desired_qty bind].
  assert (E0 : (0 - position_qty pf =? 0)%Z = false) by (apply Z.eqb_neq; lia).
  assert (E1 : (0 <? 0 - position_qty pf)%Z = false) by (apply Z.ltb_ge; lia).
  rewrite E0, E1.
  replace (Z.abs (0 - position_qty pf)) with (position_qty pf) by lia.
  reflexivity.
Qed.

(** X7. Buying from an empty position and then rebalancing to target 0 is a
    round trip: the second call sells exactly the quantity bought, the
    position is empty again, and the cash is the cash before the buy, less
    the cost of the buy, plus the proceeds of the sale, as the two calls
    compute them. *)
Theorem buy_then_liquidate_round_trip :
  forall (pf pf1 : Portfolio) (d1 d2 : Timestamp) (target : Z)
         (o1 f1 c1 o2 f2 c2 : Q) (t1 : Trade),
    position_qty pf = 0%Z ->
    rebalance_to_target pf d1 target o1 f1 c1 = Ok (pf1, Some t1) ->
    trade_side t1 = BUY ->
    exists pf2 t2,
      rebalance_to_target pf1 d2 0 o2 f2 c2 = Ok (pf2, Some t2) /\
      trade_side t2 = SELL /\
      trade_qty t2 = trade_qty t1 /\
      position_qty pf2 = 0%Z /\
      cash pf2 = cash pf - (inject_Z (trade_qty t1) * f1 + c1)
                 + (inject_Z (trade_qty t1) * f2 - c2).
Proof.
  intros pf pf1 d1 d2 target o1 f1 c1 o2 f2 c2 t1 Hflat H Hside.
  pose proof (rebalance_to_target_frame _ _ _ _ _ _ _ _ H) as (Hks1 & _).
  apply rebalance_to_target_cases in H.
  assert (Hbuy : exists q, (0 < q)%Z /\
                   (pf1, Some t1) = executed_buy pf d1 q f1 c1).
  { destruct H as [H | (desired & _ & _ & _
                        & [[Hpos [[_ H] | (_ & _ & Hq & H)]] | [Hneg H]])];
      try discriminate; eauto.
    injection H as _ ->. discriminate Hside. }
  destruct H as [H | (desired & Hks & _)]; [discriminate|].
  destruct Hbuy as (q & Hq & Hbuy). injection Hbuy as -> ->.
  assert (Hheld : position_qty
                    (commit_trade pf (cash pf - (inject_Z q * f1 + c1))
                       (position_qty pf + q)
                       (mkTrade d1 BUY q f1 (inject_Z q * f1) c1)) = q)
    by (cbn [position_qty commit_trade]; lia).
  eexists. eexists. split.
  - rewrite rebalance_to_zero_sells_all;
      [reflexivity | exact Hks | rewrite Hheld; exact Hq].
  - rewrite Hheld. cbn [trade_side trade_qty position_qty cash commit_trade
                        mkTrade].
    repeat split. lia.
Qed.

Lemma buy_then_liquidate_round_trip_witness :
  exists pf2 t2,
    rebalance_to_target
      (fst (executed_buy clamp_portfolio 7 3 30 1)) 8 0 31 29 1
      = Ok (pf2, Some t2) /\
    trade_qty t2 = 3%Z /\ position_qty pf2 = 0%Z.
Proof.
  destruct (buy_then_liquidate_round_trip clamp_portfolio
              (fst (executed_buy clamp_portfolio 7 3 30 1)) 7%Z 8%Z 1%Z
              5 30 1 31 29 1 (mkTrade 7 BUY 3 30 (inject_Z 3 * 30) 1))
    as (pf2 & t2 & H1 & _ & H2 & H3 & _).
  - reflexivity.
  - reflexivity.
  - reflexivity.
  - exists pf2, t2. auto.
Defined.

(** ** Marking to market *)

Lemma py_max_cases (a b : Q) :
  (a < b /\ py_max a b = b) \/ (b <= a /\ py_max a b = a).
Proof.
  unfold py_max. destruct (Qlt_bool a b) eqn:E.
  - left. apply Qlt_bool_iff in E. auto.
  - right. apply Qlt_bool_false_iff in E. auto.
Qed.

Lemma py_max_ge (a b : Q) : a <= py_max a b /\ b <= py_max a b.
Proof.
  destruct (py_max_cases a b) as [[H ->] | [H ->]]; split; lra.
Qed.

(** The drawdown [mark_to_market] computes from a positive peak. *)
Lemma mark_to_market_drawdown (pf : Portfolio) (d : Timestamp) (c : Q) :
  0 < _peak_equity pf ->
  exists s,
    equity_curve (mark_to_market pf d c) = equity_curve pf ++ [s] /\
    Equity s = equity_at pf c /\
    KillSwitch s = _kill_switch (mark_to_market pf d c) /\
    Drawdown s = (_peak_equity (mark_to_market pf d c) - equity_at pf c)
                 / _peak_equity (mark_to_market pf d c) /\
    _kill_switch (mark_to_market pf d c) =
      (if Qle_bool (max_drawdown (limits pf)) (Drawdown s) then true
       else _kill_switch pf).
Proof.
  intro Hpeak. unfold mark_to_market, equity_at.
  cbn [equity_curve _peak_equity _kill_switch].
  set (equity := cash pf + inject_Z (position_qty pf) * c).
  assert (Hnz : Qeq_bool (py_max (_peak_equity pf) equity) 0 = false).
  { destruct (Qeq_bool _ 0) eqn:E; [|reflexivity].
    apply Qeq_bool_eq in E.
    pose proof (py_max_ge (_peak_equity pf) equity) as [H _]. lra. }
  rewrite Hnz. eexists. split; [reflexivity|].
  cbn [Equity KillSwitch Drawdown]. repeat split.
Qed.



(** What a bar does to the switch: it is on afterwards when the drawdown the
    bar recorded is at least the limit, and otherwise as it was. *)
Lemma loop_body_switch (em : ExecutionModel) (lim : RiskLimits)
    (pf pf' : Portfolio) (p p' : option Z) (row : Bar) (tg : option Z) :
  loop_body em lim pf p row tg = Ok (pf', p') ->
  exists s,
    equity_curve pf' = equity_curve pf ++ [s] /\
    limits pf' = limits pf /\
    KillSwitch s = _kill_switch pf' /\
    _kill_switch pf' =
      (if Qle_bool (max_drawdown (limits pf)) (Drawdown s) then true
       else _kill_switch pf).
Proof.
  intro H. apply loop_body_inv in H. destruct H as [_ H].
  apply execute_pending_frame in H. destruct H as (Hks & Hcurve & Hlim & _).
  rewrite Hks, Hcurve, Hlim.
  eexists. split; [reflexivity|]. repeat split.
Qed.

(** X9. The switch records a breach of the limit: a loop that returns has
    appended one snapshot per bar, and the switch is on afterwards exactly
    when it was on at the start or one of these snapshots has a drawdown at
    or above [max_drawdown]; a recorded drawdown equal to the limit counts.
    The last snapshot shows the switch as the run leaves it. *)
Theorem kill_switch_records_a_breach :
  forall (em : ExecutionModel) (lim : RiskLimits) (rows : list Bar)
         (targets : list (option Z)) (pf pf' : Portfolio) (p p' : option Z),
    event_loop em lim rows targets pf p = Ok (pf', p') ->
    exists snaps,
      equity_curve pf' = equity_curve pf ++ snaps /\
      length snaps = length rows /\
      (kill_switch pf' = true <->
       kill_switch pf = true \/
       Exists (fun s => max_drawdown (limits pf) <= Drawdown s) snaps) /\
      (forall init s, snaps = init ++ [s] -> KillSwitch s = kill_switch pf').
Proof.
  intros em lim rows. unfold kill_switch.
  induction rows as [|row rows IH]; intros targets pf pf' p p' H.
  - injection H as <- <-. exists []. rewrite app_nil_r.
    split; [reflexivity|]. split; [reflexivity|]. split.
    + split; [auto|]. intros [Hk | Hex]; [exact Hk | inversion Hex].
    + intros init s E. destruct init; discriminate E.
  - destruct targets as [|tg targets]; [discriminate|].
    simpl in H. apply bind_Ok_inv in H.
    destruct H as ([pf1 p1] & Hbody & Hrest).
    apply loop_body_switch in Hbody.
    destruct Hbody as (s & Hs & Hlim & Hrec & Hks1).
    destruct (IH _ _ _ _ _ Hrest) as (snaps & Hsn & Hlen & Hiff & Hlast).
    rewrite Hlim in Hiff.
    exists (s :: snaps). split; [|split; [|split]].
    + rewrite Hsn, Hs, <- app_assoc. reflexivity.
    + simpl. rewrite Hlen. reflexivity.
    + rewrite Hiff, Hks1.
      destruct (Qle_bool (max_drawdown (limits pf)) (Drawdown s)) eqn:E.
      * apply Qle_bool_iff in E. split; intros _.
        -- right. apply Exists_cons_hd. exact E.
        -- left. reflexivity.
      * apply Qle_bool_false_iff in E. split.
        -- intros [Hk | Hex]; [left; exact Hk|].
           right. apply Exists_cons_tl. exact Hex.
        -- intros [Hk | Hex]; [left; exact Hk|].
           inversion Hex as [? ? Hhd | ? ? Htl]; subst; [lra|].
           right. exact Htl.
    + intros init s0 E. destruct init as [|a init].
      * injection E as <- ->.
        destruct rows as [|row' rows]; [|discriminate Hlen].
        injection Hrest as <- _. exact Hrec.
      * injection E as _ ->. apply (Hlast init s0). reflexivity.
Qed.

Lemma kill_switch_records_a_breach_witness :
  exists pf' p' snaps,
    event_loop default_ExecutionModel default_RiskLimits
      [bar 1 10 5; bar 2 5 20] [Some 0%Z; Some 1%Z]
      tripping_portfolio None = Ok (pf', p') /\
    equity_curve pf' = equity_curve tripping_portfolio ++ snaps /\
    (kill_switch pf' = true <->
     kill_switch tripping_portfolio = true \/
     Exists (fun s => max_drawdown (limits tripping_portfolio) <= Drawdown s)
       snaps).
Proof.
  destruct (event_loop default_ExecutionModel default_RiskLimits
              [bar 1 10 5; bar 2 5 20] [Some 0%Z; Some 1%Z]
              tripping_portfolio None)
    as [[pf' p']|e] eqn:Hrun; [|vm_compute in Hrun; discriminate Hrun].
  destruct (kill_switch_records_a_breach default_ExecutionModel
              default_RiskLimits [bar 1 10 5; bar 2 5 20]
              [Some 0%Z; Some 1%Z] tripping_portfolio pf' None p' Hrun)
    as (snaps & H1 & _ & H2 & _).
  exists pf', p', snaps. split; [reflexivity|]. split; assumption.
Defined.

(** ** What a bar can do to the ledger *)

Lemma simulate_fill_inv (o : Q) (side qty : Z) (em : ExecutionModel)
    (fill comm : Q) :
  simulate_fill o side qty em = Ok (fill, comm) ->
  (0 < qty)%Z /\ 0 < o /\
  fill = o * (1 + slippage_bps em / 10000 * inject_Z side) /\
  comm = commission em.
Proof.
  unfold simulate_fill, apply_slippage. intro H.
  destruct (qty <=? 0)%Z eqn:Hq; [discriminate|].
  destruct (Qle_bool o 0) eqn:Ho; [discriminate|].
  apply Z.leb_gt in Hq. apply Qle_bool_false_iff in Ho.
  injection H as <- <-. auto.
Qed.

(** The execution step either leaves the portfolio alone or appends one
    trade of the bar. *)
Lemma execute_pending_cases (em : ExecutionModel) (pf pf' : Portfolio)
    (row : Bar) (p : option Z) :
  execute_pending em (limits pf) pf (row_Date row) row p = Ok pf' ->
  pf' = pf \/
  exists target fill t,
    p = Some target /\
    rebalance_to_target pf (row_Date row) target (row_Open row) fill
      (commission em) = Ok (pf', Some t) /\
    filled_at_open em row t.
Proof.
  unfold execute_pending. intro H.
  destruct p as [target|]; [|injection H as <-; auto].
  destruct (kill_switch pf) eqn:Hks; [injection H as <-; auto|].
  apply bind_Ok_inv in H. destruct H as (delta & Hdelta & H).
  destruct (delta =? 0)%Z eqn:Hz; [injection H as <-; auto|].
  apply Z.eqb_neq in Hz.
  apply bind_Ok_inv in H. destruct H as ([fill comm] & Hfill & H).
  apply bind_Ok_inv in H. destruct H as ([pf1 ot] & Hcall & H).
  injection H as ->.
  apply simulate_fill_inv in Hfill. destruct Hfill as (_ & Ho & Hf & ->).
  destruct ot as [t|].
  2:{ apply rebalance_to_target_none_inv in Hcall; [|exact Hks]. tauto. }
  right. exists target, fill, t. split; [reflexivity|]. split; [exact Hcall|].
  assert (Hnz : ~ row_Open row == 0) by lra.
  pose proof (rebalance_to_target_cases _ _ _ _ _ _ _ Hcall) as Hcases.
  destruct Hcases as [Hc | (desired & _ & _ & Hdes & Hc)]; [discriminate|].
  destruct (sizing_at_open (limits pf) pf (row_Open row) target eq_refl Hnz)
    as [Hdes' Hdelta'].
  rewrite Hdes' in Hdes. injection Hdes as Hdes.
  rewrite Hdelta' in Hdelta. injection Hdelta as Hdelta.
  rewrite Hdes in Hdelta. clear Hdes' Hdelta'.
  assert (Hside : side_of_delta delta = side_sign (trade_side t)).
  { unfold side_of_delta.
    destruct Hc as [[Hpos [[_ Hc] | (_ & _ & _ & Hc)]] | [Hneg Hc]];
      injection Hc as _ ->; cbn [trade_side mkTrade side_sign].
    - destruct (0 <? delta)%Z eqn:E; [reflexivity|].
      apply Z.ltb_ge in E. lia.
    - destruct (0 <? delta)%Z eqn:E; [reflexivity|].
      apply Z.ltb_ge in E. lia.
    - destruct (0 <? delta)%Z eqn:E; [|reflexivity].
      apply Z.ltb_lt in E. lia. }
  destruct (returned_trade_facts pf pf' (row_Date row) target (row_Open row)
              fill (commission em) t Hcall) as (Hwf & Hd & Hp & Hcm & _).
  unfold filled_at_open. rewrite Hd, Hp, Hcm, <- Hside.
  repeat split; try assumption; apply Hwf.
Qed.

Lemma loop_body_cases (em : ExecutionModel) (pf pf' : Portfolio)
    (p p' : option Z) (row : Bar) (tg : option Z) :
  loop_body em (limits pf) pf p row tg = Ok (pf', p') ->
  limits pf' = limits pf /\
  _peak_equity pf' = py_max (_peak_equity pf) (equity_at pf (row_Close row)) /\
  (trades pf' = trades pf \/
   exists t, trades pf' = trades pf ++ [t] /\ filled_at_open em row t).
Proof.
  intro H. apply loop_body_inv in H. destruct H as [_ H].
  pose proof (execute_pending_frame _ _ _ _ _ _ _ H) as (_ & _ & Hl & Hpk).
  split; [exact Hl|]. split; [exact Hpk|].
  change (limits pf)
    with (limits (mark_to_market pf (row_Date row) (row_Close row))) in H.
  apply execute_pending_cases in H.
  destruct H as [-> | (target & fill & t & _ & Hcall & Hfilled)].
  - left. reflexivity.
  - right. exists t. split; [|exact Hfilled].
    apply returned_trade_facts in Hcall. apply Hcall.
Qed.

(** ** Invariants of a run *)

(** X10. The trade log of a run is append-only and ordered by bar: a loop
    that returns has added to the log at most one trade per bar, in the order
    of the bars, and each added trade carries the date of its bar, a positive
    quantity, the model's commission and the bar's open moved by the slippage
    in the direction of the trade (up for a buy, down for a sell). *)
Theorem trade_log_follows_the_bars :
  forall (em : ExecutionModel) (rows : list Bar) (targets : list (option Z))
         (pf pf' : Portfolio) (p p' : option Z),
    event_loop em (limits pf) rows targets pf p = Ok (pf', p') ->
    exists new,
      trades pf' = trades pf ++ new /\
      (length new <= length rows)%nat /\
      trades_of_bars em rows new.
Proof.
  intros em rows. induction rows as [|row rows IH];
    intros targets pf pf' p p' H.
  - injection H as <- <-. exists []. rewrite app_nil_r.
    repeat split; [apply le_n | constructor].
  - destruct targets as [|tg targets]; [discriminate|].
    simpl in H. apply bind_Ok_inv in H.
    destruct H as ([pf1 p1] & Hbody & Hrest).
    apply loop_body_cases in Hbody. destruct Hbody as (Hl & _ & Htr).
    rewrite <- Hl in Hrest.
    destruct (IH _ _ _ _ _ Hrest) as (new & Hnew & Hlen & Hbars).
    destruct Htr as [Htr | (t & Htr & Hfilled)].
    + exists new. rewrite Hnew, Htr. repeat split.
      * simpl. lia.
      * constructor. exact Hbars.
    + exists (t :: new). rewrite Hnew, Htr, <- app_assoc. repeat split.
      * simpl. lia.
      * constructor; assumption.
Qed.

Lemma trade_log_follows_the_bars_witness :
  exists pf' p',
    event_loop default_ExecutionModel default_RiskLimits sample_ohlcv
      sample_targets (sample_portfolio 1000 0 false) None = Ok (pf', p') /\
    exists new,
      trades pf' = trades (sample_portfolio 1000 0 false) ++ new /\
      (length new <= length sample_ohlcv)%nat /\
      trades_of_bars default_ExecutionModel sample_ohlcv new.
Proof.
  destruct (event_loop default_ExecutionModel default_RiskLimits sample_ohlcv
              sample_targets (sample_portfolio 1000 0 false) None)
    as [[pf' p']|e] eqn:Hrun; [|vm_compute in Hrun; discriminate Hrun].
  exists pf', p'. split; [reflexivity|].
  exact (trade_log_follows_the_bars default_ExecutionModel sample_ohlcv
           sample_targets (sample_portfolio 1000 0 false) pf' None p' Hrun).
Defined.

Lemma loop_body_peak (em : ExecutionModel) (lim : RiskLimits)
    (pf pf' : Portfolio) (p p' : option Z) (row : Bar) (tg : option Z) :
  loop_body em lim pf p row tg = Ok (pf', p') ->
  exists s,
    equity_curve pf' = equity_curve pf ++ [s] /\
    _peak_equity pf' = py_max (_peak_equity pf) (Equity s).
Proof.
  intro H. apply loop_body_inv in H. destruct H as [_ H].
  apply execute_pending_frame in H. destruct H as (_ & Hcurve & _ & Hpk).
  destruct (mark_to_market_snapshot pf (row_Date row) (row_Close row))
    as (s & Hs & _ & _ & _ & _ & Heq & _).
  exists s. rewrite Hcurve, Hpk, Heq. split; [exact Hs | reflexivity].
Qed.

(** X11. The peak equity is the running maximum of a run: after a loop that
    returns it is at least the peak the run started from and at least the
    equity of every snapshot the run appended, and it is one of these
    values. *)
Theorem peak_equity_is_running_maximum :
  forall (em : ExecutionModel) (lim : RiskLimits) (rows : list Bar)
         (targets : list (option Z)) (pf pf' : Portfolio) (p p' : option Z),
    event_loop em lim rows targets pf p = Ok (pf', p') ->
    exists snaps,
      equity_curve pf' = equity_curve pf ++ snaps /\
      _peak_equity pf <= _peak_equity pf' /\
      Forall (fun s => Equity s <= _peak_equity pf') snaps /\
      (_peak_equity pf' = _peak_equity pf \/
       Exists (fun s => Equity s = _peak_equity pf') snaps).
Proof.
  intros em lim rows. induction rows as [|row rows IH];
    intros targets pf pf' p p' H.
  - injection H as <- <-. exists []. rewrite app_nil_r.
    repeat split; [apply Qle_refl | constructor | left; reflexivity].
  - destruct targets as [|tg targets]; [discriminate|].
    simpl in H. apply bind_Ok_inv in H.
    destruct H as ([pf1 p1] & Hbody & Hrest).
    apply loop_body_peak in Hbody. destruct Hbody as (s & Hs & Hpk1).
    destruct (IH _ _ _ _ _ Hrest) as (snaps & Hsn & Hle & Hall & Hone).
    pose proof (py_max_ge (_peak_equity pf) (Equity s)) as [Hl Hr].
    rewrite <- Hpk1 in Hl, Hr.
    exists (s :: snaps). repeat split.
    + rewrite Hsn, Hs, <- app_assoc. reflexivity.
    + apply Qle_trans with (y := _peak_equity pf1); assumption.
    + constructor; [|exact Hall].
      apply Qle_trans with (y := _peak_equity pf1); assumption.
    + destruct Hone as [Hone | Hone].
      * destruct (py_max_cases (_peak_equity pf) (Equity s))
          as [[_ E] | [_ E]]; rewrite E in Hpk1.
        -- right. apply Exists_cons_hd. congruence.
        -- left. congruence.
      * right. apply Exists_cons_tl. exact Hone.
Qed.

Lemma peak_equity_is_running_maximum_witness :
  exists pf' p',
    event_loop default_ExecutionModel default_RiskLimits sample_ohlcv
      sample_targets (sample_portfolio 1000 0 false) None = Ok (pf', p') /\
    _peak_equity (sample_portfolio 1000 0 false) <= _peak_equity pf'.
Proof.
  destruct (event_loop default_ExecutionModel default_RiskLimits sample_ohlcv
              sample_targets (sample_portfolio 1000 0 false) None)
    as [[pf' p']|e] eqn:Hrun; [|vm_compute in Hrun; discriminate Hrun].
  exists pf', p'. split; [reflexivity|].
  destruct (peak_equity_is_running_maximum default_ExecutionModel
              default_RiskLimits sample_ohlcv sample_targets
              (sample_portfolio 1000 0 false) pf' None p' Hrun)
    as (snaps & _ & H & _).
  exact H.
Defined.

(** ** Bars that abort the run *)

Lemma loop_delta_zero_open (lim : RiskLimits) (pf : Portfolio) (o : Q)
    (target : Z) :
  o == 0 -> loop_delta lim pf o target = Raise ZeroDivisionError.
Proof.
  intro Ho. unfold loop_delta, floordiv.
  apply Qeq_eq_bool in Ho. rewrite Ho. reflexivity.
Qed.

(** X12. A bar whose open is zero aborts the whole run with
    [ZeroDivisionError] as soon as a target is pending and the switch is off
    after the bar is marked - also when the pending target is 0 and nothing
    is held, since the loop sizes the position before it looks at the target;
    the bars that follow are never processed. *)
Theorem zero_open_aborts_the_run :
  forall (em : ExecutionModel) (lim : RiskLimits)
         (rows1 rows2 : list Bar) (t1 t2 : list (option Z))
         (row : Bar) (tg : option Z)
         (pf0 pf : Portfolio) (p0 : option Z) (target : Z),
    length rows1 = length t1 ->
    event_loop em lim rows1 t1 pf0 p0 = Ok (pf, Some target) ->
    kill_switch (mark_to_market pf (row_Date row) (row_Close row)) = false ->
    row_Open row == 0 ->
    event_loop em lim (rows1 ++ row :: rows2) (t1 ++ tg :: t2) pf0 p0
      = Raise ZeroDivisionError.
Proof.
  intros em lim rows1 rows2 t1 t2 row tg pf0 pf p0 target Hlen Hrun Hks Ho.
  rewrite event_loop_app by exact Hlen. rewrite Hrun. cbn [bind].
  cbn [event_loop]. unfold loop_body, execute_pending.
  rewrite Hks. rewrite (loop_delta_zero_open _ _ _ _ Ho). reflexivity.
Qed.

Lemma zero_open_aborts_the_run_witness :
  event_loop default_ExecutionModel default_RiskLimits
    ([bar 1 10 10] ++ bar 2 0 10 :: [bar 3 10 10])
    ([Some 0%Z] ++ Some 0%Z :: [Some 0%Z])
    (sample_portfolio 1000 0 false) None
  = Raise ZeroDivisionError.
Proof.
  apply (zero_open_aborts_the_run default_ExecutionModel default_RiskLimits
           [bar 1 10 10] [bar 3 10 10] [Some 0%Z] [Some 0%Z]
           (bar 2 0 10) (Some 0%Z) (sample_portfolio 1000 0 false)
           (mark_to_market (sample_portfolio 1000 0 false) 1 10) None 0%Z).
  - reflexivity.
  - reflexivity.
  - reflexivity.
  - reflexivity.
Defined.

(** ** Runs that do not trade *)






(** ** Warm-up *)

Lemma rolling_mean_at_warmup (w : positive) (close : list Q) (i : nat) :
  (S i < Pos.to_nat w)%nat -> rolling_mean_at w close i = None.
Proof.
  intro H. unfold rolling_mean_at.
  apply Nat.ltb_lt in H. rewrite H. reflexivity.
Qed.

Lemma signal_at_long_only_warmup (params : MACrossoverParams) (close : list Q)
    (i : nat) :
  (S i < Nat.max (Pos.to_nat (fast params)) (Pos.to_nat (slow params)))%nat ->
  signal_at true (rolling_mean_at (fast params) close i)
                 (rolling_mean_at (slow params) close i) = 0%Z.
Proof.
  intro H. unfold signal_at, nan_gt.
  destruct (Nat.max_spec (Pos.to_nat (fast params)) (Pos.to_nat (slow params)))
    as [[_ E] | [_ E]]; rewrite E in H.
  - rewrite (rolling_mean_at_warmup (slow params) close i H).
    destruct (rolling_mean_at (fast params) close i); reflexivity.
  - rewrite (rolling_mean_at_warmup (fast params) close i H). reflexivity.
Qed.

Lemma firstn_seq_le (k n s : nat) :
  (k <= n)%nat -> firstn k (seq s n) = seq s k.
Proof.
  revert n s. induction k as [|k IH]; intros n s H; [reflexivity|].
  destruct n as [|n]; [lia|].
  simpl. rewrite IH by lia. reflexivity.
Qed.




(** ** A limit that stops everything *)

Lemma mark_to_market_trips_nonpositive_limit (pf : Portfolio) (d : Timestamp)
    (c : Q) :
  0 < _peak_equity pf ->
  max_drawdown (limits pf) <= 0 ->
  _kill_switch (mark_to_market pf d c) = true.
Proof.
  intros Hpeak Hlim.
  destruct (mark_to_market_drawdown pf d c Hpeak)
    as (s & _ & _ & _ & Hdd & Hks).
  rewrite Hks.
  assert (Hnn : 0 <= Drawdown s).
  { rewrite Hdd.
    change (_peak_equity (mark_to_market pf d c))
      with (py_max (_peak_equity pf) (equity_at pf c)).
    pose proof (py_max_ge (_peak_equity pf) (equity_at pf c)) as [Hl Hr].
    apply Qle_shift_div_l; lra. }
  assert (E : Qle_bool (max_drawdown (limits pf)) (Drawdown s) = true)
    by (apply Qle_bool_iff; lra).
  rewrite E. reflexivity.
Qed.

(** X15. A [max_drawdown] of zero or less, which construction accepts, stops
    the strategy before it starts: the first bar trips the switch, and [main]
    returns, whatever the prices, a portfolio with an empty trade log, its
    initial cash, no position, and one snapshot per bar, every one of which
    records the switch as on. *)
Theorem nonpositive_max_drawdown_disables_trading :
  forall (args : Args) (ohlcv : list Bar),
    (Nat.max (Pos.to_nat (arg_fast args)) (Pos.to_nat (arg_slow args)) + 2
       <= length ohlcv)%nat ->
    0 < arg_cash args ->
    arg_max_dd args <= 0 ->
    exists pf,
      main args ohlcv = Ok pf /\
      trades pf = [] /\
      cash pf = arg_cash args /\
      position_qty pf = 0%Z /\
      length (equity_curve pf) = length ohlcv /\
      Forall (fun s => KillSwitch s = true) (equity_curve pf).
Proof.
  intros args ohlcv Hlen Hcash Hdd. unfold main.
  apply Nat.ltb_ge in Hlen. rewrite Hlen. apply Nat.ltb_ge in Hlen.
  unfold Portfolio_init.
  assert (Hc : Qle_bool (arg_cash args) 0 = false)
    by (apply Qle_bool_false_iff; exact Hcash).
  rewrite Hc. cbn [bind].
  set (em := {| slippage_bps := arg_slippage_bps args;
                commission := arg_commission args |}).
  set (lim := {| max_position_pct := arg_max_position_pct args;
                 max_drawdown := arg_max_dd args |}).
  set (pf0 := {| initial_cash := arg_cash args; cash := arg_cash args;
                 position_qty := 0; limits := lim; trades := [];
                 equity_curve := []; _peak_equity := arg_cash args;
                 _kill_switch := false |}).
  set (targets := map Some _).
  assert (Htl : length targets = length ohlcv).
  { unfold targets.
    rewrite length_map, generate_ma_crossover_signals_length, length_map.
    reflexivity. }
  destruct ohlcv as [|row rest]; [simpl in Hlen; lia|].
  destruct targets as [|tg trest]; [discriminate|].
  simpl in Htl. injection Htl as Htl.
  cbn [event_loop]. unfold loop_body. rewrite execute_pending_none.
  cbn [bind].
  set (pf1 := mark_to_market pf0 (row_Date row) (row_Close row)).
  assert (Hks : kill_switch pf1 = true).
  { apply mark_to_market_trips_nonpositive_limit; [exact Hcash | exact Hdd]. }
  destruct (event_loop_killed em lim rest trest pf1 (Some (next_pending tg))
              (eq_sym Htl) Hks)
    as (pf & p & Hrun & _ & Ht & Hcs & Hq & snaps & Hsn & Hn & Hall).
  rewrite Hrun. cbn [bind]. exists pf.
  split; [reflexivity|].
  destruct (mark_to_market_snapshot pf0 (row_Date row) (row_Close row))
    as (s & Hs & _ & _ & _ & _ & _ & Hsk).
  fold pf1 in Hs, Hsk. rewrite Hs in Hsn. cbn [equity_curve pf0 app] in Hsn.
  repeat split.
  - rewrite Ht. reflexivity.
  - rewrite Hcs. reflexivity.
  - rewrite Hq. reflexivity.
  - rewrite Hsn. simpl. rewrite Hn. reflexivity.
  - rewrite Hsn. constructor; [|exact Hall]. rewrite Hsk. exact Hks.
Qed.

Lemma nonpositive_max_drawdown_disables_trading_witness :
  exists pf,
    main {| arg_fast := 1; arg_slow := 2; arg_cash := 1000;
            arg_slippage_bps := 2; arg_commission := 1;
            arg_max_position_pct := 1 # 4; arg_max_dd := 0 |} sample_ohlcv
      = Ok pf /\
    trades pf = [].
Proof.
  destruct (nonpositive_max_drawdown_disables_trading
              {| arg_fast := 1; arg_slow := 2; arg_cash := 1000;
                 arg_slippage_bps := 2; arg_commission := 1;
                 arg_max_position_pct := 1 # 4; arg_max_dd := 0 |}
              sample_ohlcv) as (pf & H1 & H2 & _).
  - apply Nat.leb_le. reflexivity.
  - reflexivity.
  - discriminate.
  - exists pf. auto.
Defined.

(** ** The signal generator *)

Lemma rolling_mean_at_app (w : positive) (close future : list Q) (i : nat) :
  (i < length close)%nat ->
  rolling_mean_at w (close ++ future) i = rolling_mean_at w close i.
Proof.
  intro Hi. unfold rolling_mean_at.
  destruct (S i <? Pos.to_nat w)%nat eqn:E; [reflexivity|].
  apply Nat.ltb_ge in E.
  rewrite skipn_app.
  replace (S i - Pos.to_nat w - length close)%nat with 0%nat by lia.
  rewrite skipn_O, firstn_app, length_skipn.
  replace (Pos.to_nat w - (length close - (S i - Pos.to_nat w)))%nat
    with 0%nat by lia.
  rewrite firstn_O, app_nil_r. reflexivity.
Qed.

(** X16. The generator does not look ahead: the targets of the first bars are
    the same whatever closes follow them, in both modes. Each target depends
    on the closes up to its own bar only. *)
Theorem signals_do_not_look_ahead :
  forall (close future : list Q) (params : MACrossoverParams)
         (long_only : bool),
    firstn (length close)
      (generate_ma_crossover_signals (close ++ future) params long_only)
    = generate_ma_crossover_signals close params long_only.
Proof.
  intros close future params long_only.
  rewrite !generate_ma_crossover_signals_pointwise.
  rewrite firstn_map, length_app, firstn_seq_le by lia.
  apply map_ext_in. intros i Hi. apply in_seq in Hi.
  rewrite !rolling_mean_at_app by lia. reflexivity.
Qed.

(** X17. The target series is aligned with the closes, one entry per bar; in
    long-only mode every entry is 0 or 1, the two targets the portfolio
    accepts, and the entries of the bars before the longer window is full
    are 0; in long/short mode every entry is -1, 0 or 1. *)
Theorem signals_are_aligned_and_in_range :
  forall (close : list Q) (params : MACrossoverParams),
    (forall long_only : bool,
        length (generate_ma_crossover_signals close params long_only)
          = length close) /\
    Forall valid_target (generate_ma_crossover_signals close params true) /\
    (forall (i : nat) (z : Z),
        (S i <
           Nat.max (Pos.to_nat (fast params)) (Pos.to_nat (slow params)))%nat ->
        nth_error (generate_ma_crossover_signals close params true) i
          = Some z ->
        z = 0%Z) /\
    Forall (fun z => z = (-1)%Z \/ z = 0%Z \/ z = 1%Z)
      (generate_ma_crossover_signals close params false).
Proof.
  intros close params. split; [|split; [|split]].
  - intro long_only. apply generate_ma_crossover_signals_length.
  - rewrite generate_ma_crossover_signals_pointwise.
    apply Forall_forall. intros z Hin.
    apply in_map_iff in Hin. destruct Hin as (i & <- & _).
    apply signal_at_long_only.
  - intros i z Hi Hnth.
    rewrite generate_ma_crossover_signals_pointwise in Hnth.
    rewrite nth_error_map in Hnth.
    destruct (nth_error (seq 0 (length close)) i) as [j|] eqn:Ej;
      [|discriminate].
    assert (Hj : j = i).
    { assert (Hlt : (i < length (seq 0 (length close)))%nat)
        by (apply nth_error_Some; congruence).
      rewrite length_seq in Hlt.
      pose proof (nth_error_nth' (seq 0 (length close)) 0%nat
                    ltac:(rewrite length_seq; exact Hlt)) as Hn.
      rewrite seq_nth in Hn by exact Hlt. simpl in Hn. congruence. }
    subst j. cbn [option_map] in Hnth. injection Hnth as <-.
    apply signal_at_long_only_warmup. exact Hi.
  - rewrite generate_ma_crossover_signals_pointwise.
    apply Forall_forall. intros z Hin.
    apply in_map_iff in Hin. destruct Hin as (i & <- & _).
    unfold signal_at.
    destruct (nan_gt _ _), (nan_eq _ _); cbn; auto.
Qed.

Lemma signals_are_aligned_and_in_range_witness :
  exists z : Z,
    nth_error (generate_ma_crossover_signals [3; 2; 1; 5]
                 {| fast := 1; slow := 3 |} true) 1 = Some z /\
    z = 0%Z.
Proof.
  eexists. split; [reflexivity|].
  apply (proj1 (proj2 (proj2 (signals_are_aligned_and_in_range [3; 2; 1; 5]
                                 {| fast := 1; slow := 3 |}))) 1%nat).
  - apply Nat.ltb_lt. reflexivity.
  - reflexivity.
Defined.

(** X18. Equal windows never signal: with [fast = slow] the two averages
    coincide wherever they are defined and every long-only target is 0. *)
Theorem equal_windows_never_signal :
  forall (close : list Q) (w : positive),
    Forall (fun z => z = 0%Z)
      (generate_ma_crossover_signals close {| fast := w; slow := w |} true).
Proof.
  intros close w. rewrite generate_ma_crossover_signals_pointwise.
  apply Forall_forall. intros z Hin.
  apply in_map_iff in Hin. destruct Hin as (i & <- & _).
  cbn [fast slow]. unfold signal_at, nan_gt.
  destruct (rolling_mean_at w close i) as [m|]; [|reflexivity].
  assert (E : Qlt_bool m m = false) by (apply Qlt_bool_false_iff; lra).
  rewrite E. reflexivity.
Qed.

(** ** The broker *)

(** X20. Slippage is directional: at a positive price and a non-negative
    slippage both sides fill, a buy at or above the price and a sell at or
    below it; with no slippage both fill at the price. *)
Theorem slippage_is_directional :
  forall (price bps : Q),
    0 < price ->
    0 <= bps ->
    exists buy sell,
      apply_slippage price 1 bps = Ok buy /\
      apply_slippage price (-1) bps = Ok sell /\
      sell <= price /\ price <= buy /\
      (bps == 0 -> sell == price /\ buy == price).
Proof.
  intros price bps Hprice Hbps. unfold apply_slippage.
  assert (E : Qle_bool price 0 = false)
    by (apply Qle_bool_false_iff; exact Hprice).
  rewrite E. eexists. eexists.
  split; [reflexivity|]. split; [reflexivity|].
  assert (Hslip : 0 <= price * (bps / 10000)).
  { apply Qmult_le_0_compat; [lra|].
    apply Qle_shift_div_l; [reflexivity | lra]. }
  assert (Hbuy : price * (1 + bps / 10000 * inject_Z 1)
                 == price + price * (bps / 10000)) by ring.
  assert (Hsell : price * (1 + bps / 10000 * inject_Z (-1))
                  == price - price * (bps / 10000)) by ring.
  rewrite Hbuy, Hsell.
  split; [lra|]. split; [lra|].
  intro Hz. rewrite Hz.
  split; field.
Qed.

Lemma slippage_is_directional_witness :
  exists buy sell,
    apply_slippage 100 1 200 = Ok buy /\
    apply_slippage 100 (-1) 200 = Ok sell /\
    sell <= 100 /\ 100 <= buy.
Proof.
  destruct (slippage_is_directional 100 200)
    as (buy & sell & H1 & H2 & H3 & H4 & _).
  - reflexivity.
  - discriminate.
  - exists buy, sell. auto.
Defined.

(** X21. [simulate_fill] returns exactly when the quantity and the price are
    positive, and raises [ValueError] otherwise; what it returns is the
    slipped price and the model's commission, the same for every quantity. *)
Theorem simulate_fill_checks_quantity_and_price :
  forall (o : Q) (side qty : Z) (em : ExecutionModel),
    ((0 < qty)%Z /\ 0 < o ->
     simulate_fill o side qty em
       = Ok (o * (1 + slippage_bps em / 10000 * inject_Z side),
             commission em)) /\
    ((qty <= 0)%Z \/ o <= 0 ->
     simulate_fill o side qty em = Raise ValueError).
Proof.
  intros o side qty em. unfold simulate_fill, apply_slippage. split.
  - intros [Hq Ho].
    apply Z.leb_gt in Hq. apply Qle_bool_false_iff in Ho.
    rewrite Hq, Ho. reflexivity.
  - intros [Hq | Ho].
    + apply Z.leb_le in Hq. rewrite Hq. reflexivity.
    + apply Qle_bool_iff in Ho. rewrite Ho.
      destruct (qty <=? 0)%Z; reflexivity.
Qed.

Lemma simulate_fill_checks_quantity_and_price_witness :
  simulate_fill 50 1 10 default_ExecutionModel
    = Ok (50 * (1 + 2 / 10000 * inject_Z 1), 1) /\
  simulate_fill 50 1 0 default_ExecutionModel = Raise ValueError.
Proof.
  split.
  - apply (proj1 (simulate_fill_checks_quantity_and_price 50 1%Z 10%Z
                    default_ExecutionModel)).
    split; reflexivity.
  - apply (proj2 (simulate_fill_checks_quantity_and_price 50 1%Z 0%Z
                    default_ExecutionModel)).
    left. discriminate.
Defined.

(** ** The equity curve of a run *)



